(** * filzl_daemons.tasks: the TaskManager of the daemon plugin

    A shallow embedding of [filzl_daemons/tasks.py].  The Postgres tables
    are lists of rows, [asyncio.Future] objects live in a store indexed by
    their address, [TaskManager.wait_signals] is a finite map from action
    ids to future addresses, and every method is a computation in a
    state-and-exception monad: a Python exception aborts the method but
    keeps the mutations made so far. *)

From stdpp Require Import gmap strings list sorting.
From Stdlib Require Import ZArith Lia.

Open Scope Z_scope.
Open Scope string_scope.

(** ** Python values *)

(** Truthiness of an [str | None] attribute: [None] and the empty string
    are falsy. *)
Definition truthy (o : option string) : bool :=
  match o with
  | Some (String _ _) => true
  | _ => false
  end.

(** Truthiness of an [int | None] attribute: [None] and [0] are falsy. *)
Definition truthy_int (o : option Z) : bool :=
  match o with
  | Some n => negb (Z.eqb n 0)
  | None => false
  end.

(** What an f-string interpolates for an [str | None] attribute. *)
Definition fmt (o : option string) : string :=
  match o with
  | Some s => s
  | None => "None"
  end.

(** Python's [sub in s] on strings. *)
Fixpoint str_contains (sub s : string) : bool :=
  String.prefix sub s ||
  match s with
  | EmptyString => false
  | String _ s' => str_contains sub s'
  end.

(** The exceptions the module can raise. [ValueError] carries the literal
    part of its message; [InvalidStateError] is what a resolved
    [asyncio.Future] answers to [set_result] and [set_exception];
    [ValidationError] is pydantic's decoding failure. *)
Inductive exn : Type :=
| ValueError (msg : string)
| InvalidStateError
| ValidationError
| NoResultFound
| KeyError.

(** A method call returns a value or raises. *)
Inductive Outcome (A : Type) : Type :=
| Return (a : A)
| Raise (e : exn).
Arguments Return {A} a.
Arguments Raise {A} e.

(** ** Collaborators that are imported by the module *)

(** Modelled from the spec: [filzl_daemons.models.QueableStatus] is not
    part of the sources at hand; the spec names the states QUEUED and
    DONE and an unspecified stretch between them. *)
Inductive QueableStatus : Type := QUEUED | IN_PROGRESS | DONE.

(** Modelled from the spec: [filzl_daemons.retry.RetryPolicy], a pure
    value with three numeric fields. *)
Module RetryPolicy.
Record t : Type := mk {
  backoff_seconds : Z;
  backoff_factor : Z;
  jitter : Z;
}.
End RetryPolicy.

(** [filzl_daemons.state.CurrentState]: only its [state] token is read. *)
Module CurrentState.
Record t : Type := mk { state : string }.
End CurrentState.

(** A row of the action table, with the columns the spec lists. *)
Module DaemonAction.
Record t : Type := mk {
  id : option Z;
  workflow_name : string;
  instance_id : Z;
  state : string;
  registry_id : string;
  input_body : option string;
  status : QueableStatus;
  final_result_id : option Z;
  retry_backoff_seconds : Z;
  retry_backoff_factor : Z;
  retry_jitter : Z;
}.
End DaemonAction.

(** A row of the result table. *)
Module DaemonActionResult.
Record t : Type := mk {
  id : option Z;
  action_id : Z;
  result_body : option string;
  exception : option string;
  exception_stack : option string;
}.
End DaemonActionResult.

(** The two tables behind [PostgresBackend], in insertion order, and the
    sequence that numbers new action rows. *)
Module PostgresBackend.
Record t : Type := mk {
  actions : list DaemonAction.t;
  results : list DaemonActionResult.t;
  action_seq : Z;
}.
End PostgresBackend.

Section Tasks.

(** The type of decoded pydantic models. *)
Context {BaseModel : Type}.

(** An output model class, seen through [model_validate_json]: a partial
    decoder ([None] stands for a raised [ValidationError]).  The decoder
    parses its argument as a JSON document, and the empty string is not
    one. *)
Record ActionModel : Type := mkActionModel {
  model_validate_json : string → option BaseModel;
  model_validate_json_empty : model_validate_json "" = None;
}.

(** [ActionExecutionStub]: the registry id and the optional input model. *)
Record ActionExecutionStub : Type := mkStub {
  registry_id : string;
  input_body : option BaseModel;
}.

(** [BaseModel.model_dump_json], the serializer of input models. *)
Variable model_dump_json : BaseModel → string.

(** [REGISTRY.get_action_output]: the registry module is not part of the
    sources at hand, so the lookup is a parameter: the output model
    registered for an id, if any. *)
Variable get_action_output : string → option ActionModel.

(** ** Futures and the manager's state *)

(** The state of one [asyncio.Future[BaseModel | None]]. A failure is an
    [Exception] object, represented by its message. *)
Inductive FutureState : Type :=
| Pending
| Finished (value : option BaseModel)
| Failed (message : string).

(** A future is denoted by its address in the store of futures. *)
Abbreviation Future := nat.

Record TaskManager : Type := mkTaskManager {
  backend : PostgresBackend.t;
  wait_signals : gmap Z Future;
  futures : list FutureState;
}.

Definition with_backend (b : PostgresBackend.t) (self : TaskManager) :=
  mkTaskManager b (wait_signals self) (futures self).
Definition with_wait_signals (w : gmap Z Future) (self : TaskManager) :=
  mkTaskManager (backend self) w (futures self).
Definition with_futures (f : list FutureState) (self : TaskManager) :=
  mkTaskManager (backend self) (wait_signals self) f.

(** ** The monad of methods *)

Definition M (A : Type) : Type := TaskManager → Outcome A * TaskManager.

#[global] Instance M_ret : MRet M := λ A a self, (Return a, self).
#[global] Instance M_bind : MBind M := λ A B k m self,
  match m self with
  | (Return a, self') => k a self'
  | (Raise e, self') => (Raise e, self')
  end.

Definition raise {A} (e : exn) : M A := fun self => (Raise e, self).
Definition get : M TaskManager := fun self => (Return self, self).
Definition modify (f : TaskManager → TaskManager) : M unit :=
  fun self => (Return tt, f self).

(** ** asyncio.Future *)

(** [asyncio.Future()]: a new pending future at the next address. *)
Definition new_future : M Future :=
  fun self =>
    (Return (length (futures self)),
     with_futures (futures self ++ [Pending]) self).

(** [future.set_result(value)] and [future.set_exception(Exception(msg))]:
    a future is resolved once; a second resolution raises. *)
Definition resolve (fut : Future) (s : FutureState) : M unit :=
  fun self =>
    match futures self !! fut with
    | Some Pending => (Return tt, with_futures (<[fut := s]> (futures self)) self)
    | _ => (Raise InvalidStateError, self)
    end.

Definition set_result (fut : Future) (value : option BaseModel) : M unit :=
  resolve fut (Finished value).
Definition set_exception (fut : Future) (message : string) : M unit :=
  resolve fut (Failed message).

(** ** The backend *)

(** The [where] clause of the lookup:
    [DaemonAction.state == state, DaemonAction.instance_id == instance_id]. *)
Definition where_state_and_instance (instance_id : Z) (state : string)
    (a : DaemonAction.t) : bool :=
  bool_decide (DaemonAction.state a = state
               ∧ DaemonAction.instance_id a = instance_id).

(** [select(DaemonAction).where(..)] followed by [.scalars().first()]. *)
Definition select_action (instance_id : Z) (state : string)
    (b : PostgresBackend.t) : option DaemonAction.t :=
  List.find (where_state_and_instance instance_id state)
    (PostgresBackend.actions b).

(** [select(DaemonActionResult).where(action_id == ..)] followed by
    [.scalars().first()]; a row without an id matches no result. *)
Definition select_result (action_id : option Z)
    (b : PostgresBackend.t) : option DaemonActionResult.t :=
  List.find
    (fun r => bool_decide (Some (DaemonActionResult.action_id r) = action_id))
    (PostgresBackend.results b).

(** [session.add(row)] and [session.commit()]: the row is stored under
    the next id of the sequence, and the object reads that id from then
    on. *)
Definition add_and_commit (row : DaemonAction.t) : M DaemonAction.t :=
  fun self =>
    let b := backend self in
    let n := PostgresBackend.action_seq b in
    let stored :=
      DaemonAction.mk (Some n)
        (DaemonAction.workflow_name row) (DaemonAction.instance_id row)
        (DaemonAction.state row) (DaemonAction.registry_id row)
        (DaemonAction.input_body row) (DaemonAction.status row)
        (DaemonAction.final_result_id row)
        (DaemonAction.retry_backoff_seconds row)
        (DaemonAction.retry_backoff_factor row)
        (DaemonAction.retry_jitter row) in
    (Return stored,
     with_backend
       (PostgresBackend.mk (PostgresBackend.actions b ++ [stored])
          (PostgresBackend.results b) (n + 1))
       self).

(** Modelled from the spec: [PostgresBackend.get_object_by_id], a scoped
    read of the row with the given id; the backend module is not part of
    the sources at hand, and a missing row is reported by an exception. *)
Definition get_action_by_id (id : Z) : M DaemonAction.t :=
  fun self =>
    match List.find (fun a => bool_decide (DaemonAction.id a = Some id))
            (PostgresBackend.actions (backend self)) with
    | Some a => (Return a, self)
    | None => (Raise NoResultFound, self)
    end.

Definition get_result_by_id (id : Z) : M DaemonActionResult.t :=
  fun self =>
    match List.find (fun r => bool_decide (DaemonActionResult.id r = Some id))
            (PostgresBackend.results (backend self)) with
    | Some r => (Return r, self)
    | None => (Raise NoResultFound, self)
    end.

(** ** TaskManager *)

Definition get_existing_action_execution (instance_id : Z)
    (state : CurrentState.t)
    : M (option DaemonAction.t * option DaemonActionResult.t) :=
  self ← get;
  match select_action instance_id (CurrentState.state state) (backend self) with
  | None => mret (None, None)
  | Some existing_action =>
      mret (Some existing_action,
           select_result (DaemonAction.id existing_action) (backend self))
  end.

Definition resolve_future_from_result (future : Future) (registry_id : string)
    (result : DaemonActionResult.t) : M unit :=
  let action_model := get_action_output registry_id in
  if truthy (DaemonActionResult.exception result) then
    set_exception future (fmt (DaemonActionResult.exception result))
  else
    future_result ←
      (match action_model, DaemonActionResult.result_body result with
      | Some model, Some (String _ _ as body) =>
          match model_validate_json model body with
          | Some decoded => mret (Some decoded)
          | None => raise ValidationError
          end
      | None, _ => mret None
      | Some _, _ => raise (ValueError "Disallowed response type")
      end);
    set_result future future_result.

Definition queue_work (task : ActionExecutionStub) (state : CurrentState.t)
    (instance_id : Z) (queue_name : string) (retry : RetryPolicy.t)
    : M Future :=
  found ← get_existing_action_execution instance_id state;
  let '(existing_action, existing_result) := found in
  existing_action ←
    (match existing_action with
    | None =>
        (* status and final_result_id are left to the defaults of the
           model: QUEUED and no result *)
        add_and_commit
          (DaemonAction.mk None queue_name instance_id
             (CurrentState.state state) (registry_id task)
             (model_dump_json <$> input_body task)
             QUEUED None 1 1 1)
    | Some existing_action => mret existing_action
    end);
  match DaemonAction.id existing_action with
  | None => raise (ValueError "Action task ID is None")
  | Some action_id =>
      match existing_result with
      | Some existing_result =>
          immediate_future ← new_future;
          resolve_future_from_result immediate_future (registry_id task)
            existing_result;;
          mret immediate_future
      | None =>
          fresh ← new_future;
          modify (fun self =>
            with_wait_signals (<[action_id := fresh]> (wait_signals self)) self);;
          self ← get;
          match wait_signals self !! action_id with
          | Some signal => mret signal
          | None => raise KeyError
          end
      end
  end.

(** The body of the [async for] loop of [delegate_done_actions], for one
    notification. *)
Definition delegate_done_action (notification_id : Z) : M unit :=
  self ← get;
  match wait_signals self !! notification_id with
  | None => mret tt
  | Some waiting_futures =>
      obj ← get_action_by_id notification_id;
      if negb (truthy_int (DaemonAction.final_result_id obj)) then mret tt
      else
        result_obj ←
          get_result_by_id (default 0 (DaemonAction.final_result_id obj));
        if truthy (DaemonActionResult.exception result_obj) then
          set_exception waiting_futures
            ("Action failed with error: "
             +:+ fmt (DaemonActionResult.exception result_obj)
             +:+ " "
             +:+ fmt (DaemonActionResult.exception_stack result_obj))
        else
          resolve_future_from_result waiting_futures
            (DaemonAction.registry_id obj) result_obj
  end.

(** Modelled from the spec: [PostgresBackend.iter_ready_objects] is the
    at-least-once stream of ids of actions that reached DONE; the loop is
    run on the notifications delivered so far, in order.  The loop has no
    handler: an exception raised by one notification leaves it. *)
Fixpoint delegate_done_actions (notifications : list Z) : M unit :=
  match notifications with
  | [] => mret tt
  | notification :: rest =>
      delegate_done_action notification;;
      delegate_done_actions rest
  end.

(** The row that [queue_work] inserts when the pair has none. *)
Definition new_row (task : ActionExecutionStub) (state : CurrentState.t)
    (instance_id : Z) (queue_name : string) (id : Z) : DaemonAction.t :=
  DaemonAction.mk (Some id) queue_name instance_id (CurrentState.state state)
    (registry_id task) (model_dump_json <$> input_body task)
    QUEUED None 1 1 1.

(** A caller that repeats [queue_work] for one pair, one call after the
    other; a call that raises leaves its mutations behind and the next
    call goes on from there. *)
Fixpoint queue_work_repeatedly
    (calls : list (ActionExecutionStub * string * RetryPolicy.t))
    (state : CurrentState.t) (instance_id : Z) (self : TaskManager)
    : TaskManager :=
  match calls with
  | [] => self
  | (task, queue_name, retry) :: later =>
      queue_work_repeatedly later state instance_id
        (queue_work task state instance_id queue_name retry self).2
  end.

(** [TaskManager.__init__]: a manager over a backend starts with an
    empty [wait_signals]; the store of futures is the event loop's. *)
Definition TaskManager_init (backend : PostgresBackend.t)
    (loop_futures : list FutureState) : TaskManager :=
  mkTaskManager backend ∅ loop_futures.

(** What happens to a manager over time: its owner calls [queue_work],
    its drain loop consumes a batch of notifications, or somebody else (a
    worker, another process) rewrites the tables of the shared backend. *)
Inductive Step : Type :=
| CallQueueWork (task : ActionExecutionStub) (state : CurrentState.t)
    (instance_id : Z) (queue_name : string) (retry : RetryPolicy.t)
| RunDrain (notifications : list Z)
| LedgerWrite (tables : PostgresBackend.t).

Definition run_step (step : Step) (self : TaskManager) : TaskManager :=
  match step with
  | CallQueueWork task state instance_id queue_name retry =>
      (queue_work task state instance_id queue_name retry self).2
  | RunDrain notifications => (delegate_done_actions notifications self).2
  | LedgerWrite tables => with_backend tables self
  end.

Fixpoint run_steps (steps : list Step) (self : TaskManager) : TaskManager :=
  match steps with
  | [] => self
  | step :: later => run_steps later (run_step step self)
  end.

(** A notification that the loop body skips: no future is registered for
    the id, or the row it loads has no final result id. *)
Definition skipped (self : TaskManager) (n : Z) : Prop :=
  wait_signals self !! n = None
  ∨ ∃ obj, get_action_by_id n self = (Return obj, self)
           ∧ truthy_int (DaemonAction.final_result_id obj) = false.

(** ** Properties *)

(** The outcome and the final state of a method call. *)
Definition outcome {A} (r : Outcome A * TaskManager) : Outcome A := r.1.
Definition after {A} (r : Outcome A * TaskManager) : TaskManager := r.2.

(** The rows stored for a pair, and the invariant of the action table:
    at most one row per pair. *)
Definition rows_of (instance_id : Z) (state : string)
    (b : PostgresBackend.t) : list DaemonAction.t :=
  List.filter (where_state_and_instance instance_id state)
    (PostgresBackend.actions b).

Definition one_row_per_pair (self : TaskManager) : Prop :=
  ∀ instance_id state,
    (length (rows_of instance_id state (backend self)) ≤ 1)%nat.

(** What the tables hold, said without the queries. [is_pair] is a row
    of the pair; [first_row_of] is the earliest row of the pair and
    [no_row_of] says there is none; [first_result_of] is the earliest
    result stored for an action id and [no_result_of] says there is
    none. *)
Definition is_pair (instance_id : Z) (state : string)
    (a : DaemonAction.t) : Prop :=
  DaemonAction.instance_id a = instance_id ∧ DaemonAction.state a = state.

Definition first_row_of (instance_id : Z) (state : string)
    (b : PostgresBackend.t) (a : DaemonAction.t) : Prop :=
  ∃ before rest,
    PostgresBackend.actions b = (before ++ a :: rest)%list
    ∧ Forall (λ x, ¬ is_pair instance_id state x) before
    ∧ is_pair instance_id state a.


Definition first_result_of (action_id : Z) (b : PostgresBackend.t)
    (r : DaemonActionResult.t) : Prop :=
  ∃ before rest,
    PostgresBackend.results b = (before ++ r :: rest)%list
    ∧ Forall (λ x, DaemonActionResult.action_id x ≠ action_id) before
    ∧ DaemonActionResult.action_id r = action_id.


(** [key_exists] says that the action table holds a row for the pair. *)
Definition key_exists (instance_id : Z) (state : CurrentState.t)
    (self : TaskManager) : Prop :=
  is_Some (select_action instance_id (CurrentState.state state) (backend self)).

Lemma bind_return {A B} (m : M A) (k : A → M B) self a self' :
  m self = (Return a, self') → (m ≫= k) self = k a self'.
Proof. intros E. unfold mbind, M_bind. by rewrite E. Qed.

Lemma bind_raise {A B} (m : M A) (k : A → M B) self e self' :
  m self = (Raise e, self') → (m ≫= k) self = (Raise e, self').
Proof. intros E. unfold mbind, M_bind. by rewrite E. Qed.

Lemma get_existing_found instance_id state self a :
  select_action instance_id (CurrentState.state state) (backend self) = Some a →
  get_existing_action_execution instance_id state self =
    (Return (Some a, select_result (DaemonAction.id a) (backend self)), self).
Proof.
  intros E. unfold get_existing_action_execution.
  rewrite (bind_return get _ self self self) by reflexivity. by rewrite E.
Qed.

Lemma get_existing_missing instance_id state self :
  select_action instance_id (CurrentState.state state) (backend self) = None →
  get_existing_action_execution instance_id state self =
    (Return (None, None), self).
Proof.
  intros E. unfold get_existing_action_execution.
  rewrite (bind_return get _ self self self) by reflexivity. by rewrite E.
Qed.

(** The lookup reads the tables and nothing else. *)
Lemma get_existing_pure instance_id state self :
  after (get_existing_action_execution instance_id state self) = self.
Proof.
  destruct (select_action instance_id (CurrentState.state state) (backend self))
    as [a|] eqn:E.
  - by rewrite (get_existing_found _ _ _ _ E).
  - by rewrite (get_existing_missing _ _ _ E).
Qed.

(** C1, as the code has it: while a row exists for the pair and has no
    result, every [queue_work] call for the pair allocates a new pending
    future, which is none of the futures handed out before, and stores it
    under the row's id in place of whatever was registered there; the
    tables and the older futures are left as they were. *)
Theorem queue_work_pending_allocates_fresh_handle
    task state instance_id queue_name retry self a action_id :
  get_existing_action_execution instance_id state self =
    (Return (Some a, None), self) →
  DaemonAction.id a = Some action_id →
  queue_work task state instance_id queue_name retry self =
    (Return (length (futures self)),
     mkTaskManager (backend self)
       (<[action_id := length (futures self)]> (wait_signals self))
       (futures self ++ [Pending]))
  ∧ futures self !! length (futures self) = None
  ∧ ∀ old, is_Some (futures self !! old) → length (futures self) ≠ old.
Proof.
  intros Hfind Hid. split; [|split].
  - unfold queue_work. rewrite (bind_return _ _ _ _ _ Hfind). cbn beta iota.
    rewrite (bind_return (mret a) _ self a self) by reflexivity.
    rewrite Hid. unfold mbind, M_bind, new_future, modify, get, mret, M_ret.
    cbn. by rewrite lookup_insert_eq.
  - apply lookup_ge_None_2. lia.
  - intros old [fs Hfs] Heq. apply lookup_lt_Some in Hfs. lia.
Qed.

(** *** Resolving a future from a stored result *)

Lemma resolve_pending fut s self :
  futures self !! fut = Some Pending →
  resolve fut s self =
    (Return tt, with_futures (<[fut := s]> (futures self)) self).
Proof. intros E. unfold resolve. by rewrite E. Qed.

(** A future that is already resolved refuses a second resolution and
    keeps its state. *)
Lemma resolve_done fut s self fs :
  futures self !! fut = Some fs → fs ≠ Pending →
  resolve fut s self = (Raise InvalidStateError, self).
Proof. intros E Hfs. unfold resolve. rewrite E. by destruct fs. Qed.

Lemma resolve_from_exception fut registry_id r self :
  truthy (DaemonActionResult.exception r) = true →
  resolve_future_from_result fut registry_id r self =
    set_exception fut (fmt (DaemonActionResult.exception r)) self.
Proof. intros E. unfold resolve_future_from_result. by rewrite E. Qed.

Lemma resolve_from_no_model fut registry_id r self :
  truthy (DaemonActionResult.exception r) = false →
  get_action_output registry_id = None →
  resolve_future_from_result fut registry_id r self = set_result fut None self.
Proof.
  intros E Hreg. unfold resolve_future_from_result. by rewrite E, Hreg.
Qed.

Lemma resolve_from_body fut registry_id r self model body decoded :
  truthy (DaemonActionResult.exception r) = false →
  get_action_output registry_id = Some model →
  DaemonActionResult.result_body r = Some body →
  model_validate_json model body = Some decoded →
  resolve_future_from_result fut registry_id r self =
    set_result fut (Some decoded) self.
Proof.
  intros E Hreg Hbody Hdec. unfold resolve_future_from_result.
  rewrite E, Hreg, Hbody. destruct body as [|c body].
  - by rewrite model_validate_json_empty in Hdec.
  - by rewrite Hdec.
Qed.

Lemma resolve_from_undecodable fut registry_id r self model body :
  truthy (DaemonActionResult.exception r) = false →
  get_action_output registry_id = Some model →
  DaemonActionResult.result_body r = Some body →
  body ≠ "" →
  model_validate_json model body = None →
  resolve_future_from_result fut registry_id r self =
    (Raise ValidationError, self).
Proof.
  intros E Hreg Hbody Hne Hdec. unfold resolve_future_from_result.
  rewrite E, Hreg, Hbody. destruct body as [|c body]; [done|]. by rewrite Hdec.
Qed.

Lemma resolve_from_missing_body fut registry_id r self model :
  truthy (DaemonActionResult.exception r) = false →
  get_action_output registry_id = Some model →
  truthy (DaemonActionResult.result_body r) = false →
  resolve_future_from_result fut registry_id r self =
    (Raise (ValueError "Disallowed response type"), self).
Proof.
  intros E Hreg Hbody. unfold resolve_future_from_result.
  rewrite E, Hreg. by destruct (DaemonActionResult.result_body r) as [[|c b]|].
Qed.

(** On a resolved future every path of [resolve_future_from_result] ends
    in an exception and changes nothing. *)
Lemma resolve_future_from_result_done fut registry_id r self fs :
  futures self !! fut = Some fs → fs ≠ Pending →
  ∃ e, resolve_future_from_result fut registry_id r self = (Raise e, self).
Proof.
  intros E Hfs. unfold resolve_future_from_result.
  destruct (truthy (DaemonActionResult.exception r)).
  { eexists. by eapply resolve_done. }
  destruct (get_action_output registry_id) as [model|].
  - destruct (DaemonActionResult.result_body r) as [[|c body]|];
      try (eexists; reflexivity).
    destruct (model_validate_json model (String c body)) as [decoded|] eqn:Hdec.
    + exists InvalidStateError. unfold mbind, M_bind, mret, M_ret. cbn.
      unfold set_result. by erewrite resolve_done.
    + eexists. reflexivity.
  - exists InvalidStateError. unfold mbind, M_bind, mret, M_ret. cbn.
    unfold set_result. by erewrite resolve_done.
Qed.

Lemma resolve_pending_without_model fut registry_id r self :
  get_action_output registry_id = None →
  truthy (DaemonActionResult.exception r) = false →
  futures self !! fut = Some Pending →
  resolve_future_from_result fut registry_id r self =
    (Return tt, with_futures (<[fut := Finished None]> (futures self)) self).
Proof.
  intros Hreg E Hfut. rewrite resolve_from_no_model by done.
  by apply resolve_pending.
Qed.

(** C4, as the code has it: without a registered output model a result
    that carries no exception resolves the pending future with the absent
    value, whatever its [result_body] holds; nothing is raised. *)
Theorem resolve_without_model_gives_absent_value fut registry_id r self :
  get_action_output registry_id = None →
  truthy (DaemonActionResult.exception r) = false →
  futures self !! fut = Some Pending →
  resolve_future_from_result fut registry_id r self =
    (Return tt, with_futures (<[fut := Finished None]> (futures self)) self).
Proof.
  intros Hreg E Hfut. rewrite resolve_from_no_model by done.
  by apply resolve_pending.
Qed.

(** *** The drain loop *)

Lemma get_action_by_id_pure id self :
  after (get_action_by_id id self) = self.
Proof. unfold get_action_by_id. by destruct (List.find _ _). Qed.

Lemma get_result_by_id_pure id self :
  after (get_result_by_id id self) = self.
Proof. unfold get_result_by_id. by destruct (List.find _ _). Qed.

(** A notification for an id without a registered future is dropped. *)
Lemma delegate_done_action_unregistered n self :
  wait_signals self !! n = None →
  delegate_done_action n self = (Return tt, self).
Proof.
  intros E. unfold delegate_done_action.
  rewrite (bind_return get _ self self self) by reflexivity. by rewrite E.
Qed.

(** A DONE row without a final result is skipped. *)
Lemma delegate_done_action_no_result n self fut obj :
  wait_signals self !! n = Some fut →
  get_action_by_id n self = (Return obj, self) →
  truthy_int (DaemonAction.final_result_id obj) = false →
  delegate_done_action n self = (Return tt, self).
Proof.
  intros E Hobj Hres. unfold delegate_done_action.
  rewrite (bind_return get _ self self self) by reflexivity. rewrite E.
  by rewrite (bind_return _ _ _ _ _ Hobj), Hres.
Qed.

(** With the row and its final result loaded, the body resolves the
    registered future: from the exception and its stack, or through
    [resolve_future_from_result] under the row's registry id. *)
Lemma delegate_done_action_loaded n self fut obj rid r :
  wait_signals self !! n = Some fut →
  get_action_by_id n self = (Return obj, self) →
  DaemonAction.final_result_id obj = Some rid → rid ≠ 0 →
  get_result_by_id rid self = (Return r, self) →
  delegate_done_action n self =
    if truthy (DaemonActionResult.exception r)
    then set_exception fut
           ("Action failed with error: "
            +:+ fmt (DaemonActionResult.exception r)
            +:+ " " +:+ fmt (DaemonActionResult.exception_stack r)) self
    else resolve_future_from_result fut (DaemonAction.registry_id obj) r self.
Proof.
  intros E Hobj Hfin Hrid Hres. unfold delegate_done_action.
  rewrite (bind_return get _ self self self) by reflexivity. rewrite E.
  rewrite (bind_return _ _ _ _ _ Hobj), Hfin. cbn.
  destruct (Z.eqb_spec rid 0) as [|_]; [done|]. cbn.
  rewrite (bind_return _ _ _ _ _ Hres).
  by destruct (truthy (DaemonActionResult.exception r)).
Qed.

(** C7: when [delegate_done_actions] resolves a registered, pending
    future from a result without an exception, a registered model with a
    body present gives the decoded body, no registered model gives the
    absent value, and a registered model with the body absent raises and
    leaves the future pending. *)
Theorem delegate_done_action_resolution n self fut obj rid r :
  wait_signals self !! n = Some fut →
  futures self !! fut = Some Pending →
  get_action_by_id n self = (Return obj, self) →
  DaemonAction.final_result_id obj = Some rid → rid ≠ 0 →
  get_result_by_id rid self = (Return r, self) →
  truthy (DaemonActionResult.exception r) = false →
  (∀ model body decoded,
     get_action_output (DaemonAction.registry_id obj) = Some model →
     DaemonActionResult.result_body r = Some body →
     model_validate_json model body = Some decoded →
     delegate_done_action n self =
       (Return tt,
        with_futures (<[fut := Finished (Some decoded)]> (futures self)) self))
  ∧ (get_action_output (DaemonAction.registry_id obj) = None →
     delegate_done_action n self =
       (Return tt, with_futures (<[fut := Finished None]> (futures self)) self))
  ∧ (∀ model,
     get_action_output (DaemonAction.registry_id obj) = Some model →
     DaemonActionResult.result_body r = None →
     (∃ msg, delegate_done_action n self = (Raise (ValueError msg), self))
     ∧ futures (after (delegate_done_action n self)) !! fut = Some Pending).
Proof.
  intros E Hfut Hobj Hfin Hrid Hres Hexc.
  rewrite (delegate_done_action_loaded _ _ _ _ _ _ E Hobj Hfin Hrid Hres), Hexc.
  split; [|split].
  - intros model body decoded Hreg Hbody Hdec.
    rewrite (resolve_from_body _ _ _ _ _ _ _ Hexc Hreg Hbody Hdec).
    by apply resolve_pending.
  - intros Hreg. by apply resolve_pending_without_model.
  - intros model Hreg Hbody.
    rewrite (resolve_from_missing_body _ _ _ _ model Hexc Hreg)
      by (by rewrite Hbody).
    split; [by eexists | done].
Qed.

(** C3, as the code has it: a DONE notification for an id whose
    registered future is already resolved changes neither the future nor
    the map nor anything else, but it is answered by an exception unless
    the loaded row has no final result id: the body tries to resolve the
    future a second time. *)
Theorem delegate_done_action_on_resolved n self fut fs :
  wait_signals self !! n = Some fut →
  futures self !! fut = Some fs →
  fs ≠ Pending →
  after (delegate_done_action n self) = self
  ∧ (outcome (delegate_done_action n self) = Return tt ↔
     ∃ obj, get_action_by_id n self = (Return obj, self)
            ∧ truthy_int (DaemonAction.final_result_id obj) = false).
Proof.
  intros E Hfut Hfs.
  destruct (get_action_by_id n self) as [[obj|e] self1] eqn:Hobj.
  2: {
    pose proof (get_action_by_id_pure n self) as Hp. rewrite Hobj in Hp.
    cbn in Hp. subst self1. unfold delegate_done_action.
    rewrite (bind_return get _ self self self) by reflexivity. rewrite E.
    rewrite (bind_raise _ _ _ _ _ Hobj). split; [done|]. cbn.
    split; [done|]. by intros (obj & [=] & _). }
  pose proof (get_action_by_id_pure n self) as Hp. rewrite Hobj in Hp.
  cbn in Hp. subst self1.
  destruct (truthy_int (DaemonAction.final_result_id obj)) eqn:Hfin.
  2: {
    rewrite (delegate_done_action_no_result _ _ _ _ E Hobj Hfin).
    split; [done|]. split; [|done]. intros _. by exists obj. }
  assert (outcome (delegate_done_action n self) ≠ Return tt
          ∧ after (delegate_done_action n self) = self) as [Hout Haft].
  { destruct (DaemonAction.final_result_id obj) as [rid|] eqn:Hrid; [|done].
    assert (rid ≠ 0) as Hne.
    { intros ->. by cbn in Hfin. }
    destruct (get_result_by_id rid self) as [[r|e] self1] eqn:Hres;
      pose proof (get_result_by_id_pure rid self) as Hq; rewrite Hres in Hq;
      cbn in Hq; subst self1.
    - rewrite (delegate_done_action_loaded _ _ _ _ _ _ E Hobj Hrid Hne Hres).
      destruct (truthy (DaemonActionResult.exception r)).
      + unfold set_exception. by erewrite resolve_done.
      + destruct (resolve_future_from_result_done fut
                    (DaemonAction.registry_id obj) r self fs Hfut Hfs)
          as [e ->]. done.
    - unfold delegate_done_action.
      rewrite (bind_return get _ self self self) by reflexivity. rewrite E.
      rewrite (bind_return _ _ _ _ _ Hobj), Hrid. cbn.
      destruct (Z.eqb_spec rid 0) as [|_]; [done|]. cbn.
      by rewrite (bind_raise _ _ _ _ _ Hres). }
  split; [done|]. split; [done|].
  intros (obj' & [= <-] & Hfalse). congruence.
Qed.

Lemma delegate_done_actions_one n self :
  delegate_done_actions [n] self = delegate_done_action n self.
Proof.
  cbn. unfold mbind, M_bind.
  by destruct (delegate_done_action n self) as [[[]|e] self'].
Qed.

Lemma delegate_done_actions_app before rest self self1 :
  delegate_done_actions before self = (Return tt, self1) →
  delegate_done_actions (before ++ rest) self = delegate_done_actions rest self1.
Proof.
  revert self. induction before as [|n before IH]; intros self Hrun.
  - cbn in Hrun. by injection Hrun as ->.
  - cbn in *. unfold mbind, M_bind in *.
    destruct (delegate_done_action n self) as [[[]|e] self2]; [|done].
    by apply IH.
Qed.

(** C6, as the code has it: the loop has no handler, so the exception
    raised while handling one notification leaves [delegate_done_actions]
    with the state reached at that point; the notifications behind it are
    not processed. *)
Theorem delegate_done_actions_stops_at_raise before n rest self self1 e self2 :
  delegate_done_actions before self = (Return tt, self1) →
  delegate_done_action n self1 = (Raise e, self2) →
  delegate_done_actions (before ++ n :: rest) self = (Raise e, self2).
Proof.
  intros Hbefore Hn. rewrite (delegate_done_actions_app _ _ _ _ Hbefore).
  cbn. by rewrite (bind_raise _ _ _ _ _ Hn).
Qed.

(** *** queue_work, path by path *)

(** Resolving touches the store of futures only. *)
Lemma resolve_frame fut s self :
  backend (after (resolve fut s self)) = backend self
  ∧ wait_signals (after (resolve fut s self)) = wait_signals self.
Proof. unfold resolve. by destruct (futures self !! fut) as [[]|]. Qed.

Lemma resolve_future_from_result_frame fut registry_id r self :
  backend (after (resolve_future_from_result fut registry_id r self))
    = backend self
  ∧ wait_signals (after (resolve_future_from_result fut registry_id r self))
    = wait_signals self.
Proof.
  unfold resolve_future_from_result.
  destruct (truthy (DaemonActionResult.exception r)); [apply resolve_frame|].
  destruct (get_action_output registry_id) as [model|].
  - destruct (DaemonActionResult.result_body r) as [[|c body]|]; try done.
    destruct (model_validate_json model (String c body)); [|done].
    apply resolve_frame.
  - apply resolve_frame.
Qed.

Lemma queue_work_found task state instance_id queue_name retry self a action_id :
  select_action instance_id (CurrentState.state state) (backend self) = Some a →
  DaemonAction.id a = Some action_id →
  queue_work task state instance_id queue_name retry self =
    match select_result (Some action_id) (backend self) with
    | Some r =>
        match resolve_future_from_result (length (futures self))
                (registry_id task) r
                (with_futures (futures self ++ [Pending]) self) with
        | (Return _, self') => (Return (length (futures self)), self')
        | (Raise e, self') => (Raise e, self')
        end
    | None =>
        (Return (length (futures self)),
         mkTaskManager (backend self)
           (<[action_id := length (futures self)]> (wait_signals self))
           (futures self ++ [Pending]))
    end.
Proof.
  intros Hsel Hid. unfold queue_work.
  rewrite (bind_return _ _ _ _ _ (get_existing_found _ _ _ _ Hsel)).
  cbn beta iota. rewrite (bind_return (mret a) _ self a self) by reflexivity.
  rewrite Hid. destruct (select_result (Some action_id) (backend self)); [done|].
  unfold mbind, M_bind, new_future, modify, get, mret, M_ret. cbn.
  by rewrite lookup_insert_eq.
Qed.

Lemma queue_work_found_without_id task state instance_id queue_name retry self a :
  select_action instance_id (CurrentState.state state) (backend self) = Some a →
  DaemonAction.id a = None →
  queue_work task state instance_id queue_name retry self =
    (Raise (ValueError "Action task ID is None"), self).
Proof.
  intros Hsel Hid. unfold queue_work.
  rewrite (bind_return _ _ _ _ _ (get_existing_found _ _ _ _ Hsel)).
  cbn beta iota. rewrite (bind_return (mret a) _ self a self) by reflexivity.
  by rewrite Hid.
Qed.

Lemma queue_work_missing task state instance_id queue_name retry self :
  select_action instance_id (CurrentState.state state) (backend self) = None →
  queue_work task state instance_id queue_name retry self =
    (Return (length (futures self)),
     mkTaskManager
       (PostgresBackend.mk
          (PostgresBackend.actions (backend self)
             ++ [new_row task state instance_id queue_name
                   (PostgresBackend.action_seq (backend self))])
          (PostgresBackend.results (backend self))
          (PostgresBackend.action_seq (backend self) + 1))
       (<[PostgresBackend.action_seq (backend self) := length (futures self)]>
          (wait_signals self))
       (futures self ++ [Pending])).
Proof.
  intros Hsel. unfold queue_work.
  rewrite (bind_return _ _ _ _ _ (get_existing_missing _ _ _ Hsel)).
  cbn beta iota.
  unfold mbind, M_bind, add_and_commit, new_future, modify, get, mret, M_ret.
  cbn. by rewrite lookup_insert_eq.
Qed.

(** Whatever path is taken, the tables change only by the insert of the
    missing row. *)
Lemma queue_work_keeps_tables task state instance_id queue_name retry self :
  key_exists instance_id state self →
  backend (after (queue_work task state instance_id queue_name retry self))
    = backend self.
Proof.
  intros [a Hsel]. destruct (DaemonAction.id a) as [action_id|] eqn:Hid.
  - rewrite (queue_work_found _ _ _ _ _ _ _ _ Hsel Hid).
    destruct (select_result (Some action_id) (backend self)) as [r|]; [|done].
    pose proof (resolve_future_from_result_frame (length (futures self))
                  (registry_id task) r
                  (with_futures (futures self ++ [Pending]) self)) as [Hb _].
    by destruct (resolve_future_from_result _ _ _ _) as [[[]|e] self'].
  - by rewrite (queue_work_found_without_id _ _ _ _ _ _ _ Hsel Hid).
Qed.

Lemma lookup_fresh_future (fs : list FutureState) (s : FutureState) :
  (fs ++ [s])%list !! length fs = Some s.
Proof. by rewrite list_lookup_middle. Qed.

Lemma insert_fresh_future (fs : list FutureState) (s s' : FutureState) :
  <[length fs := s']> (fs ++ [s])%list = (fs ++ [s'])%list.
Proof.
  rewrite insert_app_r_alt by lia. by rewrite Nat.sub_diag.
Qed.

Lemma resolve_fresh s self :
  resolve (length (futures self)) s
    (with_futures (futures self ++ [Pending]) self)
  = (Return tt, with_futures (futures self ++ [s]) self).
Proof.
  rewrite resolve_pending by apply lookup_fresh_future. cbn.
  by rewrite insert_fresh_future.
Qed.

(** The fast path, from the answer of the lookup: the map and the tables
    are left as they were, and the future that is returned is a new one,
    resolved from the result the lookup gave. *)
Lemma queue_work_fast_path_found
    task state instance_id queue_name retry self a action_id r :
  get_existing_action_execution instance_id state self =
    (Return (Some a, Some r), self) →
  DaemonAction.id a = Some action_id →
  ∃ out self',
    queue_work task state instance_id queue_name retry self = (out, self')
    ∧ wait_signals self' = wait_signals self
    ∧ backend self' = backend self
    ∧ (∀ h, out = Return h →
         futures self !! h = None
         ∧ ∃ fs, futures self' !! h = Some fs ∧ fs ≠ Pending
           ∧ (truthy (DaemonActionResult.exception r) = true →
              fs = Failed (fmt (DaemonActionResult.exception r)))
           ∧ (truthy (DaemonActionResult.exception r) = false →
              get_action_output (registry_id task) = None →
              fs = Finished None)
           ∧ (truthy (DaemonActionResult.exception r) = false →
              ∀ model, get_action_output (registry_id task) = Some model →
              ∃ body decoded,
                DaemonActionResult.result_body r = Some body
                ∧ model_validate_json model body = Some decoded
                ∧ fs = Finished (Some decoded)))
    ∧ (truthy (DaemonActionResult.exception r) = true
       ∨ get_action_output (registry_id task) = None
       ∨ (∃ model body decoded,
            get_action_output (registry_id task) = Some model
            ∧ DaemonActionResult.result_body r = Some body
            ∧ model_validate_json model body = Some decoded) →
       out = Return (length (futures self))).
Proof.
  intros Hfind Hid.
  assert (select_action instance_id (CurrentState.state state) (backend self)
          = Some a
          ∧ select_result (Some action_id) (backend self) = Some r)
    as [Hsel Hres].
  { destruct (select_action instance_id (CurrentState.state state)
                (backend self)) as [a'|] eqn:Hsel.
    - rewrite (get_existing_found _ _ _ _ Hsel) in Hfind.
      injection Hfind as -> Hr. by rewrite Hid in Hr.
    - by rewrite (get_existing_missing _ _ _ Hsel) in Hfind. }
  rewrite (queue_work_found _ _ _ _ _ _ _ _ Hsel Hid), Hres.
  set (h := length (futures self)).
  set (self1 := with_futures (futures self ++ [Pending]) self).
  assert (futures self !! h = None) as Hnew by (apply lookup_ge_None_2; lia).
  destruct (truthy (DaemonActionResult.exception r)) eqn:Hexc.
  { rewrite resolve_from_exception by done. unfold set_exception, self1, h.
    rewrite resolve_fresh. do 2 eexists. split; [done|].
    split; [done|]. split; [done|]. split; [|done].
    intros ? [= <-]. split; [done|]. eexists. cbn.
    rewrite lookup_fresh_future. repeat split; done. }
  destruct (get_action_output (registry_id task)) as [model|] eqn:Hreg.
  2: { rewrite resolve_from_no_model by done. unfold set_result, self1, h.
       rewrite resolve_fresh. do 2 eexists. split; [done|].
       split; [done|]. split; [done|]. split; [|done].
       intros ? [= <-]. split; [done|]. eexists. cbn.
       rewrite lookup_fresh_future. repeat split; done. }
  destruct (DaemonActionResult.result_body r) as [body|] eqn:Hbody.
  2: { erewrite resolve_from_missing_body by (done || by rewrite Hbody).
       do 2 eexists. split; [done|]. split; [done|]. split; [done|].
       split; [done|]. intros [|[|(? & ? & ? & _ & ? & _)]]; done. }
  destruct (model_validate_json model body) as [decoded|] eqn:Hdec.
  - erewrite resolve_from_body by done. unfold set_result, self1, h.
    rewrite resolve_fresh. do 2 eexists. split; [done|].
    split; [done|]. split; [done|]. split; [|done].
    intros ? [= <-]. split; [done|]. eexists. cbn.
    rewrite lookup_fresh_future. split; [done|]. split; [done|].
    split; [done|]. split; [done|]. intros _ model' [= <-]. eauto.
  - destruct (decide (body = "")) as [->|Hne].
    + erewrite resolve_from_missing_body by (done || by rewrite Hbody).
      do 2 eexists. split; [done|]. split; [done|]. split; [done|].
      split; [done|]. intros [|[|(? & ? & ? & [= <-] & [= <-] & ?)]]; congruence.
    + erewrite resolve_from_undecodable by done.
      do 2 eexists. split; [done|]. split; [done|]. split; [done|].
      split; [done|]. intros [|[|(? & ? & ? & [= <-] & [= <-] & ?)]]; congruence.
Qed.


(** *** The queries against the tables *)

Lemma find_first {A} (p : A → bool) (before rest : list A) (x : A) :
  Forall (λ y, p y = false) before → p x = true →
  List.find p (before ++ x :: rest)%list = Some x.
Proof.
  induction 1 as [|y before Hy _ IH]; cbn; intros Hx.
  - by rewrite Hx.
  - rewrite Hy. by apply IH.
Qed.


Lemma where_state_and_instance_true instance_id state a :
  is_pair instance_id state a →
  where_state_and_instance instance_id state a = true.
Proof. intros [Hi Hs]. by apply bool_decide_eq_true. Qed.

Lemma where_state_and_instance_false instance_id state a :
  ¬ is_pair instance_id state a →
  where_state_and_instance instance_id state a = false.
Proof.
  intros Hno. apply bool_decide_eq_false. intros [Hs Hi]. by apply Hno.
Qed.

(** The action query answers with the earliest row of the pair, and
    with nothing when the table has no row of the pair. *)
Lemma select_action_first instance_id state b a :
  first_row_of instance_id state b a →
  select_action instance_id state b = Some a.
Proof.
  intros (before & rest & Heq & Hbefore & Ha). unfold select_action.
  rewrite Heq. apply find_first.
  - eapply Forall_impl; [exact Hbefore|]. intros x.
    apply where_state_and_instance_false.
  - by apply where_state_and_instance_true.
Qed.


(** The result query answers with the earliest result stored for the
    id, and with nothing when there is none. *)
Lemma select_result_first action_id b r :
  first_result_of action_id b r → select_result (Some action_id) b = Some r.
Proof.
  intros (before & rest & Heq & Hbefore & Hr). unfold select_result.
  rewrite Heq. apply find_first.
  - eapply Forall_impl; [exact Hbefore|]. intros x Hx. cbn beta.
    apply bool_decide_eq_false. intros [= Hsame]. by apply Hx.
  - apply bool_decide_eq_true. by rewrite Hr.
Qed.


(** A stored result for an id has an earliest one. *)
Lemma stored_result_has_first action_id b stored :
  stored ∈ PostgresBackend.results b →
  DaemonActionResult.action_id stored = action_id →
  ∃ r, first_result_of action_id b r.
Proof.
  unfold first_result_of. generalize (PostgresBackend.results b) as results.
  intros results Hin Hid.
  induction results as [|x results IH]; [by inv Hin|].
  destruct (decide (DaemonActionResult.action_id x = action_id)) as [Hx|Hx].
  - exists x, [], results. by repeat split.
  - assert (stored ∈ results) as Hin'.
    { apply elem_of_cons in Hin as [->|Hin]; [congruence|done]. }
    destruct (IH Hin') as (r & before & rest & -> & Hbefore & Hr).
    exists r, (x :: before), rest. split; [done|]. split; [|done].
    by constructor.
Qed.

(** C9: when the table holds a row of the pair and the result table holds
    a result for the id of the earliest such row, the call takes the
    result from the tables: it leaves the wait-handle map (and the
    tables) as they were, and the future it returns is a new one that is
    resolved by the time it is returned, from the earliest stored result
    of that row: with a failure carrying the stored exception, or with
    the absent value when no model is registered for the task, or with
    the decoded body. The call returns in each of these cases. *)
Theorem queue_work_fast_path
    task state instance_id queue_name retry self a action_id stored :
  first_row_of instance_id (CurrentState.state state) (backend self) a →
  DaemonAction.id a = Some action_id →
  stored ∈ PostgresBackend.results (backend self) →
  DaemonActionResult.action_id stored = action_id →
  ∃ r out self',
    first_result_of action_id (backend self) r
    ∧ queue_work task state instance_id queue_name retry self = (out, self')
    ∧ wait_signals self' = wait_signals self
    ∧ backend self' = backend self
    ∧ (∀ h, out = Return h →
         futures self !! h = None
         ∧ ∃ fs, futures self' !! h = Some fs ∧ fs ≠ Pending
           ∧ (truthy (DaemonActionResult.exception r) = true →
              fs = Failed (fmt (DaemonActionResult.exception r)))
           ∧ (truthy (DaemonActionResult.exception r) = false →
              get_action_output (registry_id task) = None →
              fs = Finished None)
           ∧ (truthy (DaemonActionResult.exception r) = false →
              ∀ model, get_action_output (registry_id task) = Some model →
              ∃ body decoded,
                DaemonActionResult.result_body r = Some body
                ∧ model_validate_json model body = Some decoded
                ∧ fs = Finished (Some decoded)))
    ∧ (truthy (DaemonActionResult.exception r) = true
       ∨ get_action_output (registry_id task) = None
       ∨ (∃ model body decoded,
            get_action_output (registry_id task) = Some model
            ∧ DaemonActionResult.result_body r = Some body
            ∧ model_validate_json model body = Some decoded) →
       out = Return (length (futures self))).
Proof.
  intros Hrow Hid Hstored Haction.
  destruct (stored_result_has_first _ _ _ Hstored Haction) as [r Hr].
  pose proof (select_action_first _ _ _ _ Hrow) as Hsel.
  pose proof (select_result_first _ _ _ Hr) as Hres.
  destruct (queue_work_fast_path_found task state instance_id queue_name retry
              self a action_id r) as (out & self' & Hrest).
  - rewrite (get_existing_found _ _ _ _ Hsel). by rewrite Hid, Hres.
  - done.
  - by exists r, out, self'.
Qed.


(** *** Repeated calls for one pair *)

Lemma find_app_miss {A} (p : A → bool) (l : list A) (x : A) :
  List.find p l = None → p x = true → List.find p (l ++ [x])%list = Some x.
Proof.
  induction l as [|y l IH]; cbn; intros Hl Hx.
  - by rewrite Hx.
  - destruct (p y); [done|]. by apply IH.
Qed.

(** After any call for the pair the table holds a row for it. *)
Lemma queue_work_establishes_key task state instance_id queue_name retry self :
  key_exists instance_id state
    (after (queue_work task state instance_id queue_name retry self)).
Proof.
  destruct (select_action instance_id (CurrentState.state state) (backend self))
    as [a|] eqn:Hsel.
  - unfold key_exists. rewrite queue_work_keeps_tables by (by exists a).
    by exists a.
  - rewrite (queue_work_missing _ _ _ _ _ _ Hsel). unfold key_exists.
    eexists. cbn. unfold select_action in *. cbn.
    apply find_app_miss; [done|]. by apply bool_decide_eq_true.
Qed.

Lemma queue_work_inserts_at_most_one task state instance_id queue_name retry self :
  let actions_after :=
    PostgresBackend.actions
      (backend (after (queue_work task state instance_id queue_name retry self)))
  in
  actions_after = PostgresBackend.actions (backend self)
  ∨ ∃ row, actions_after = (PostgresBackend.actions (backend self) ++ [row])%list.
Proof.
  destruct (select_action instance_id (CurrentState.state state) (backend self))
    as [a|] eqn:Hsel; cbn zeta.
  - left. by rewrite queue_work_keeps_tables by (by exists a).
  - right. rewrite (queue_work_missing _ _ _ _ _ _ Hsel). by eexists.
Qed.

Lemma queue_work_repeatedly_keeps_tables calls state instance_id self :
  key_exists instance_id state self →
  backend (queue_work_repeatedly calls state instance_id self) = backend self.
Proof.
  revert self. induction calls as [|[[task queue_name] retry] calls IH];
    intros self Hkey; [done|].
  cbn. rewrite IH.
  - by apply queue_work_keeps_tables.
  - apply queue_work_establishes_key.
Qed.

Lemma find_none_filter {A} (p : A → bool) (l : list A) :
  List.find p l = None → List.filter p l = [].
Proof.
  induction l as [|x l IH]; [done|]. cbn. destruct (p x); [done|]. apply IH.
Qed.

(** X14: A sequential [queue_work] keeps the invariant of the action table. *)
Lemma queue_work_keeps_one_row_per_pair
    task state instance_id queue_name retry self :
  one_row_per_pair self →
  one_row_per_pair
    (after (queue_work task state instance_id queue_name retry self)).
Proof.
  intros Hinv.
  destruct (select_action instance_id (CurrentState.state state) (backend self))
    as [a|] eqn:Hsel.
  - intros i s. rewrite queue_work_keeps_tables by (by exists a). apply Hinv.
  - rewrite (queue_work_missing _ _ _ _ _ _ Hsel). intros i s.
    unfold rows_of. cbn. rewrite List.filter_app, length_app. cbn.
    destruct (where_state_and_instance i s _) eqn:Hmatch.
    + apply bool_decide_eq_true in Hmatch as [<- <-]. cbn in *.
      unfold select_action in Hsel. by rewrite (find_none_filter _ _ Hsel).
    + cbn. specialize (Hinv i s). unfold rows_of in Hinv. lia.
Qed.

(** C8: over any sequence of [queue_work] calls for one pair, made one
    after the other with whatever task, queue name and retry policy, only
    the first call can insert, and it inserts at most one row: after it
    the table holds a row for the pair, and the tables after the whole
    sequence are the tables as the first call left them. *)
Theorem queue_work_repeatedly_inserts_once
    task queue_name retry later state instance_id self :
  (PostgresBackend.actions
     (backend (after (queue_work task state instance_id queue_name retry self)))
   = PostgresBackend.actions (backend self)
   ∨ ∃ row,
     PostgresBackend.actions
       (backend (after (queue_work task state instance_id queue_name retry self)))
     = (PostgresBackend.actions (backend self) ++ [row])%list)
  ∧ key_exists instance_id state
      (after (queue_work task state instance_id queue_name retry self))
  ∧ backend
      (queue_work_repeatedly ((task, queue_name, retry) :: later)
         state instance_id self)
    = backend (after (queue_work task state instance_id queue_name retry self)).
Proof.
  split; [apply queue_work_inserts_at_most_one|].
  split; [apply queue_work_establishes_key|].
  cbn. apply queue_work_repeatedly_keeps_tables, queue_work_establishes_key.
Qed.

(** *** What the inserted row and the failure text hold *)

(** The row inserted for a new pair has its three retry columns at 1,
    whatever policy the caller passed. *)
Lemma queue_work_inserted_retry_columns
    task state instance_id queue_name retry self :
  select_action instance_id (CurrentState.state state) (backend self) = None →
  ∃ row,
    PostgresBackend.actions
      (backend (after (queue_work task state instance_id queue_name retry self)))
    = (PostgresBackend.actions (backend self) ++ [row])%list
    ∧ DaemonAction.retry_backoff_seconds row = 1
    ∧ DaemonAction.retry_backoff_factor row = 1
    ∧ DaemonAction.retry_jitter row = 1.
Proof.
  intros Hsel. rewrite (queue_work_missing _ _ _ _ _ _ Hsel). by eexists.
Qed.

Lemma append_cons c (s r : string) : String c s +:+ r = String c (s +:+ r).
Proof. reflexivity. Qed.

Lemma append_nil (r : string) : "" +:+ r = r.
Proof. reflexivity. Qed.

Lemma prefix_append (sub rest : string) :
  String.prefix sub (sub +:+ rest) = true.
Proof.
  induction sub as [|c sub IH]; [by destruct rest|].
  rewrite append_cons. cbn.
  destruct (Ascii.ascii_dec c c); [apply IH | congruence].
Qed.

Lemma str_contains_prefix (sub s : string) :
  String.prefix sub s = true → str_contains sub s = true.
Proof. intros E. destruct s; cbn [str_contains]; by rewrite E. Qed.

Lemma str_contains_middle (sub before rest : string) :
  str_contains sub (before +:+ sub +:+ rest) = true.
Proof.
  induction before as [|c before IH].
  - rewrite append_nil. apply str_contains_prefix, prefix_append.
  - rewrite append_cons. cbn [str_contains]. rewrite IH. apply orb_true_r.
Qed.

Lemma string_app_assoc (a b c : string) : (a +:+ b) +:+ c = a +:+ (b +:+ c).
Proof.
  induction a as [|x a IH]; [done|]. rewrite !append_cons. by rewrite IH.
Qed.

Lemma string_app_empty (a : string) : a +:+ "" = a.
Proof.
  induction a as [|x a IH]; [done|]. rewrite append_cons. by rewrite IH.
Qed.

(** X13: In the drain loop a stored failure resolves the pending future with a
    message that contains the exception text and the stack text. *)
Lemma delegate_done_action_failure_text n self fut obj rid r text stack :
  wait_signals self !! n = Some fut →
  futures self !! fut = Some Pending →
  get_action_by_id n self = (Return obj, self) →
  DaemonAction.final_result_id obj = Some rid → rid ≠ 0 →
  get_result_by_id rid self = (Return r, self) →
  DaemonActionResult.exception r = Some text → text ≠ "" →
  DaemonActionResult.exception_stack r = Some stack →
  ∃ message,
    delegate_done_action n self =
      (Return tt, with_futures (<[fut := Failed message]> (futures self)) self)
    ∧ str_contains text message = true
    ∧ str_contains stack message = true.
Proof.
  intros E Hfut Hobj Hfin Hrid Hres Hexc Hne Hstack.
  rewrite (delegate_done_action_loaded _ _ _ _ _ _ E Hobj Hfin Hrid Hres).
  rewrite Hexc, Hstack. destruct text as [|c text]; [done|]. cbn [truthy fmt].
  eexists. split; [by apply resolve_pending|]. split.
  - apply str_contains_middle.
  - set (head := "Action failed with error: ").
    replace (head +:+ String c text +:+ " " +:+ stack)
      with ((head +:+ String c text +:+ " ") +:+ stack +:+ "")
      by (by rewrite string_app_empty, !string_app_assoc).
    apply str_contains_middle.
Qed.

(** On the fast path of [queue_work] the failure is built from the
    exception text alone. *)
Lemma queue_work_fast_path_failure_text
    task state instance_id queue_name retry self a action_id r :
  select_action instance_id (CurrentState.state state) (backend self) = Some a →
  DaemonAction.id a = Some action_id →
  select_result (Some action_id) (backend self) = Some r →
  truthy (DaemonActionResult.exception r) = true →
  queue_work task state instance_id queue_name retry self =
    (Return (length (futures self)),
     with_futures
       (futures self ++ [Failed (fmt (DaemonActionResult.exception r))]) self).
Proof.
  intros Hsel Hid Hres Hexc.
  rewrite (queue_work_found _ _ _ _ _ _ _ _ Hsel Hid), Hres.
  rewrite resolve_from_exception by done. unfold set_exception.
  by rewrite resolve_fresh.
Qed.

(** ** Further properties of the manager *)

(** *** What one step can change *)

Lemma resolve_cases fut s self :
  resolve fut s self = (Raise InvalidStateError, self)
  ∨ (futures self !! fut = Some Pending
     ∧ resolve fut s self =
         (Return tt, with_futures (<[fut := s]> (futures self)) self)).
Proof.
  unfold resolve. destruct (futures self !! fut) as [[]|]; auto.
Qed.

Lemma resolve_future_from_result_cases fut registry_id r self :
  (∃ e, resolve_future_from_result fut registry_id r self = (Raise e, self))
  ∨ (∃ s, s ≠ Pending
        ∧ futures self !! fut = Some Pending
        ∧ resolve_future_from_result fut registry_id r self =
            (Return tt, with_futures (<[fut := s]> (futures self)) self)).
Proof.
  assert (∀ s, s ≠ Pending →
            (∃ e, resolve fut s self = (Raise e, self))
            ∨ (∃ s', s' ≠ Pending ∧ futures self !! fut = Some Pending
                 ∧ resolve fut s self =
                     (Return tt,
                      with_futures (<[fut := s']> (futures self)) self)))
    as Hresolve.
  { intros s Hs. destruct (resolve_cases fut s self) as [->|[Hp ->]].
    - left. by eexists.
    - right. by exists s. }
  unfold resolve_future_from_result, set_exception, set_result.
  destruct (truthy (DaemonActionResult.exception r)); [by apply Hresolve|].
  destruct (get_action_output registry_id) as [model|].
  - destruct (DaemonActionResult.result_body r) as [[|c body]|];
      try (left; eexists; reflexivity).
    destruct (model_validate_json model (String c body)) as [decoded|];
      [|left; eexists; reflexivity].
    by apply (Hresolve (Finished (Some decoded))).
  - by apply (Hresolve (Finished None)).
Qed.

(** The loop body either leaves the manager as it is, or resolves the
    pending future registered under the notified id and returns. *)
Lemma delegate_done_action_cases n self :
  (∃ out, delegate_done_action n self = (out, self))
  ∨ (∃ fut s, wait_signals self !! n = Some fut
        ∧ s ≠ Pending
        ∧ futures self !! fut = Some Pending
        ∧ delegate_done_action n self =
            (Return tt, with_futures (<[fut := s]> (futures self)) self)).
Proof.
  destruct (wait_signals self !! n) as [fut|] eqn:E.
  2: { left. eexists. by apply delegate_done_action_unregistered. }
  unfold delegate_done_action.
  rewrite (bind_return get _ self self self) by reflexivity. rewrite E.
  pose proof (get_action_by_id_pure n self) as Hp.
  destruct (get_action_by_id n self) as [[obj|e] self1] eqn:Hobj;
    cbn in Hp; subst self1.
  2: { left. eexists. by rewrite (bind_raise _ _ _ _ _ Hobj). }
  rewrite (bind_return _ _ _ _ _ Hobj).
  destruct (truthy_int (DaemonAction.final_result_id obj)); cbn [negb];
    [|left; by eexists].
  set (rid := default 0 (DaemonAction.final_result_id obj)).
  pose proof (get_result_by_id_pure rid self) as Hq.
  destruct (get_result_by_id rid self) as [[r|e] self1] eqn:Hres;
    cbn in Hq; subst self1.
  2: { left. eexists. by rewrite (bind_raise _ _ _ _ _ Hres). }
  rewrite (bind_return _ _ _ _ _ Hres).
  destruct (truthy (DaemonActionResult.exception r)).
  - unfold set_exception.
    match goal with |- context [resolve fut ?s self] =>
      destruct (resolve_cases fut s self) as [->|[Hpend ->]];
        [left; by eexists | right; exists fut, s; by repeat split]
    end.
  - destruct (resolve_future_from_result_cases fut
                (DaemonAction.registry_id obj) r self)
      as [[e ->]|(s & Hs & Hpend & ->)];
      [left; by eexists | right; exists fut, s; by repeat split].
Qed.

Lemma delegate_done_action_raise_unchanged n self e self' :
  delegate_done_action n self = (Raise e, self') → self' = self.
Proof.
  intros Hrun.
  destruct (delegate_done_action_cases n self)
    as [[out Hsame]|(fut & s & _ & _ & _ & Hres)]; congruence.
Qed.

Lemma delegate_done_action_frame n self :
  backend (after (delegate_done_action n self)) = backend self
  ∧ wait_signals (after (delegate_done_action n self)) = wait_signals self
  ∧ length (futures (after (delegate_done_action n self)))
    = length (futures self).
Proof.
  destruct (delegate_done_action_cases n self)
    as [[out ->]|(fut & s & _ & _ & _ & ->)]; [done|].
  cbn. by rewrite length_insert.
Qed.

Lemma delegate_done_actions_step n rest self :
  after (delegate_done_actions (n :: rest) self)
  = match delegate_done_action n self with
    | (Return _, self1) => after (delegate_done_actions rest self1)
    | (Raise _, self1) => self1
    end.
Proof.
  cbn. unfold mbind, M_bind.
  by destruct (delegate_done_action n self) as [[[]|e] self1].
Qed.

(** *** The drain loop *)

(** X1: Skipped notifications: a run of the loop over notifications that are
    all for unregistered ids, or for rows whose [final_result_id] is
    [None] or [0], returns normally and leaves the manager as it was. For
    an unregistered id nothing is read from the ledger, so the run
    cannot fail on a missing row either. *)
Theorem delegate_done_actions_skips notifications self :
  Forall (skipped self) notifications →
  delegate_done_actions notifications self = (Return tt, self).
Proof.
  induction 1 as [|n rest Hn _ IH]; [done|].
  assert (delegate_done_action n self = (Return tt, self)) as Hskip.
  { destruct (wait_signals self !! n) as [fut|] eqn:E.
    - destruct Hn as [Hnone|(obj & Hobj & Hfin)]; [congruence|].
      by eapply delegate_done_action_no_result.
    - by apply delegate_done_action_unregistered. }
  cbn. by rewrite (bind_return _ _ _ _ _ Hskip).
Qed.

(** X2: The loop only reads the ledger and the map: whatever the
    notifications and whether or not it ends in an exception, the tables
    and [wait_signals] are afterwards what they were (a resolved future
    stays registered), and no future is created or dropped. *)
Theorem delegate_done_actions_frame notifications self :
  backend (after (delegate_done_actions notifications self)) = backend self
  ∧ wait_signals (after (delegate_done_actions notifications self))
    = wait_signals self
  ∧ length (futures (after (delegate_done_actions notifications self)))
    = length (futures self).
Proof.
  revert self. induction notifications as [|n rest IH]; intros self; [done|].
  rewrite delegate_done_actions_step.
  pose proof (delegate_done_action_frame n self) as (Hb & Hw & Hl).
  destruct (delegate_done_action n self) as [[[]|e] self1]; cbn in Hb, Hw, Hl.
  - destruct (IH self1) as (-> & -> & ->). done.
  - done.
Qed.

(** X3: The loop resolves futures through the map only: a future that is
    registered under none of the notified ids is, after the run, in the
    state it was in before. *)
Theorem delegate_done_actions_touches_notified_only notifications self h :
  (∀ n, n ∈ notifications → wait_signals self !! n ≠ Some h) →
  futures (after (delegate_done_actions notifications self)) !! h
  = futures self !! h.
Proof.
  revert self. induction notifications as [|n rest IH]; intros self Hh; [done|].
  rewrite delegate_done_actions_step.
  destruct (delegate_done_action_cases n self)
    as [[out ->]|(fut & s & Hfut & _ & _ & ->)].
  - destruct out as [[]|e]; [|done]. apply IH.
    intros m Hm. apply Hh. by right.
  - rewrite IH.
    + cbn. apply list_lookup_insert_ne. intros ->.
      by apply (Hh n); [left|].
    + intros m Hm. cbn. apply Hh. by right.
Qed.

(** X4: When the loop ends in an exception, the notification that raised can
    be pointed at: the notifications before it were handled without
    error, the manager is in the state they produced, and the failing
    notification itself changed nothing. *)
Theorem delegate_done_actions_raise_point notifications self e self' :
  delegate_done_actions notifications self = (Raise e, self') →
  ∃ before n rest,
    notifications = (before ++ n :: rest)%list
    ∧ delegate_done_actions before self = (Return tt, self')
    ∧ delegate_done_action n self' = (Raise e, self').
Proof.
  revert self. induction notifications as [|n rest IH]; intros self Hrun;
    [done|].
  cbn in Hrun. unfold mbind, M_bind in Hrun.
  destruct (delegate_done_action n self) as [[[]|e1] self1] eqn:Hn.
  - destruct (IH _ Hrun) as (before & m & rest' & -> & Hbefore & Hm).
    exists (n :: before), m, rest'. split; [done|]. split; [|done].
    cbn. by rewrite (bind_return _ _ _ _ _ Hn).
  - injection Hrun as -> ->.
    pose proof (delegate_done_action_raise_unchanged _ _ _ _ Hn) as ->.
    by exists [], n, rest.
Qed.

(** *** queue_work *)

Lemma resolve_future_from_result_fresh registry_id r self :
  (∃ e, (e = ValueError "Disallowed response type" ∨ e = ValidationError)
        ∧ resolve_future_from_result (length (futures self)) registry_id r
            (with_futures (futures self ++ [Pending]) self)
          = (Raise e, with_futures (futures self ++ [Pending]) self))
  ∨ (∃ s, s ≠ Pending
        ∧ resolve_future_from_result (length (futures self)) registry_id r
            (with_futures (futures self ++ [Pending]) self)
          = (Return tt, with_futures (futures self ++ [s]) self)).
Proof.
  unfold resolve_future_from_result, set_exception, set_result.
  destruct (truthy (DaemonActionResult.exception r)).
  { right. eexists. split; [|apply resolve_fresh]. done. }
  destruct (get_action_output registry_id) as [model|].
  - destruct (DaemonActionResult.result_body r) as [[|c body]|];
      try (left; eexists; split; [|reflexivity]; by left).
    destruct (model_validate_json model (String c body)) as [decoded|].
    + right. exists (Finished (Some decoded)). split; [done|].
      unfold mbind, M_bind, mret, M_ret. cbn. apply resolve_fresh.
    + left. eexists. split; [|reflexivity]. by right.
  - right. exists (Finished None). split; [done|].
    unfold mbind, M_bind, mret, M_ret. cbn. apply resolve_fresh.
Qed.

(** The four ways a call can go. *)
Lemma queue_work_paths task state instance_id queue_name retry self :
  (select_action instance_id (CurrentState.state state) (backend self) = None
   ∧ queue_work task state instance_id queue_name retry self =
       (Return (length (futures self)),
        mkTaskManager
          (PostgresBackend.mk
             (PostgresBackend.actions (backend self)
                ++ [new_row task state instance_id queue_name
                      (PostgresBackend.action_seq (backend self))])
             (PostgresBackend.results (backend self))
             (PostgresBackend.action_seq (backend self) + 1))
          (<[PostgresBackend.action_seq (backend self)
               := length (futures self)]> (wait_signals self))
          (futures self ++ [Pending])))
  ∨ (∃ a,
       select_action instance_id (CurrentState.state state) (backend self)
         = Some a
       ∧ DaemonAction.id a = None
       ∧ queue_work task state instance_id queue_name retry self =
           (Raise (ValueError "Action task ID is None"), self))
  ∨ (∃ a action_id,
       select_action instance_id (CurrentState.state state) (backend self)
         = Some a
       ∧ DaemonAction.id a = Some action_id
       ∧ select_result (Some action_id) (backend self) = None
       ∧ queue_work task state instance_id queue_name retry self =
           (Return (length (futures self)),
            mkTaskManager (backend self)
              (<[action_id := length (futures self)]> (wait_signals self))
              (futures self ++ [Pending])))
  ∨ (∃ a action_id r,
       select_action instance_id (CurrentState.state state) (backend self)
         = Some a
       ∧ DaemonAction.id a = Some action_id
       ∧ select_result (Some action_id) (backend self) = Some r
       ∧ ((∃ e, (e = ValueError "Disallowed response type"
                 ∨ e = ValidationError)
                ∧ queue_work task state instance_id queue_name retry self =
                    (Raise e, with_futures (futures self ++ [Pending]) self))
          ∨ (∃ s, s ≠ Pending
                ∧ queue_work task state instance_id queue_name retry self =
                    (Return (length (futures self)),
                     with_futures (futures self ++ [s]) self)))).
Proof.
  destruct (select_action instance_id (CurrentState.state state) (backend self))
    as [a|] eqn:Hsel.
  2: { left. split; [done|]. by apply queue_work_missing. }
  right. destruct (DaemonAction.id a) as [action_id|] eqn:Hid.
  2: { left. exists a. split; [done|]. split; [done|].
       by apply queue_work_found_without_id with a. }
  right. rewrite (queue_work_found _ _ _ _ _ _ _ _ Hsel Hid).
  destruct (select_result (Some action_id) (backend self)) as [r|] eqn:Hres.
  2: { left. by exists a, action_id. }
  right. exists a, action_id, r. do 3 (split; [done|]).
  destruct (resolve_future_from_result_fresh (registry_id task) r self)
    as [(e & He & ->)|(s & Hs & ->)].
  - left. by exists e.
  - right. by exists s.
Qed.

Lemma queue_work_keeps_futures
    task state instance_id queue_name retry self h fs :
  futures self !! h = Some fs →
  futures (after (queue_work task state instance_id queue_name retry self))
    !! h = Some fs.
Proof.
  intros Hh.
  destruct (queue_work_paths task state instance_id queue_name retry self)
    as [[_ ->]|[(a & _ & _ & ->)|[(a & action_id & _ & _ & _ & ->)
       |(a & action_id & r & _ & _ & _ & [(e & _ & ->)|(s & _ & ->)])]]];
    cbn; try done; by apply lookup_app_l_Some.
Qed.

Lemma queue_work_registers_at_most_one
    task state instance_id queue_name retry self :
  wait_signals (after (queue_work task state instance_id queue_name retry self))
  = wait_signals self
  ∨ ∃ action_id,
      wait_signals
        (after (queue_work task state instance_id queue_name retry self))
      = <[action_id := length (futures self)]> (wait_signals self).
Proof.
  destruct (queue_work_paths task state instance_id queue_name retry self)
    as [[_ ->]|[(a & _ & _ & ->)|[(a & action_id & _ & _ & _ & ->)
       |(a & action_id & r & _ & _ & _ & [(e & _ & ->)|(s & _ & ->)])]]];
    cbn; eauto.
Qed.

(** X5: What a call leaves alone: the result table, every future that
    existed before the call, and every registration except possibly one,
    which then points at the future created by this call. *)
Theorem queue_work_frame task state instance_id queue_name retry self :
  PostgresBackend.results
    (backend (after (queue_work task state instance_id queue_name retry self)))
  = PostgresBackend.results (backend self)
  ∧ (∀ h fs, futures self !! h = Some fs →
       futures (after (queue_work task state instance_id queue_name retry self))
         !! h = Some fs)
  ∧ (wait_signals
       (after (queue_work task state instance_id queue_name retry self))
     = wait_signals self
     ∨ ∃ action_id,
         wait_signals
           (after (queue_work task state instance_id queue_name retry self))
         = <[action_id := length (futures self)]> (wait_signals self)).
Proof.
  destruct (queue_work_paths task state instance_id queue_name retry self)
    as [[_ ->]|[(a & _ & _ & ->)|[(a & action_id & _ & _ & _ & ->)
       |(a & action_id & r & _ & _ & _ & [(e & _ & ->)|(s & _ & ->)])]]];
    cbn; (split; [done|]); (split; [|by eauto]);
    intros h fs Hh; try done; by apply lookup_app_l_Some.
Qed.

(** X6: When a call raises, the pair already had a row, nothing was inserted
    and nothing was registered, and the exception is one of three: the
    row has no id, or a model is registered for the task and the stored
    result has no body, or the body does not validate. In particular a
    call for a pair without a row does not raise. *)
Theorem queue_work_raise task state instance_id queue_name retry self e :
  outcome (queue_work task state instance_id queue_name retry self) = Raise e →
  key_exists instance_id state self
  ∧ backend (after (queue_work task state instance_id queue_name retry self))
    = backend self
  ∧ wait_signals
      (after (queue_work task state instance_id queue_name retry self))
    = wait_signals self
  ∧ (e = ValueError "Action task ID is None"
     ∨ e = ValueError "Disallowed response type"
     ∨ e = ValidationError).
Proof.
  destruct (queue_work_paths task state instance_id queue_name retry self)
    as [[_ ->]|[(a & Hsel & _ & ->)|[(a & action_id & _ & _ & _ & ->)
       |(a & action_id & r & Hsel & _ & _ & [(e' & He & ->)|(s & _ & ->)])]]];
    cbn; intros [= <-] || intros [=].
  - split; [by exists a|]. auto.
  - split; [by exists a|]. split; [done|]. split; [done|].
    destruct He as [->| ->]; auto.
Qed.

(** X7: Insert, then look up: after a call for a pair without a row, the
    lookup for the pair finds the inserted row: queued under the caller's
    queue name and the task's registry id, with the serialized input, an
    id from the sequence and no final result. *)
Theorem queue_work_then_lookup task state instance_id queue_name retry self :
  select_action instance_id (CurrentState.state state) (backend self) = None →
  ∃ row,
    row = DaemonAction.mk (Some (PostgresBackend.action_seq (backend self)))
            queue_name instance_id (CurrentState.state state)
            (registry_id task) (model_dump_json <$> input_body task)
            QUEUED None 1 1 1
    ∧ get_existing_action_execution instance_id state
        (after (queue_work task state instance_id queue_name retry self))
      = (Return
           (Some row,
            select_result (Some (PostgresBackend.action_seq (backend self)))
              (backend self)),
         after (queue_work task state instance_id queue_name retry self)).
Proof.
  intros Hsel. eexists. split; [reflexivity|].
  rewrite (queue_work_missing _ _ _ _ _ _ Hsel). unfold after. cbn [snd].
  rewrite (get_existing_found _ _ _
             (new_row task state instance_id queue_name
                (PostgresBackend.action_seq (backend self)))).
  - reflexivity.
  - unfold select_action in *. cbn. apply find_app_miss; [done|].
    by apply bool_decide_eq_true.
Qed.

(** X8: The lookup never raises and answers from the tables alone: the row
    it returns is a stored row of the pair, the result it returns is a
    stored result of that row, and it returns no row only when the table
    has none for the pair (and then no result either). *)
Theorem get_existing_action_execution_sound instance_id state self :
  ∃ found result,
    get_existing_action_execution instance_id state self
      = (Return (found, result), self)
    ∧ (∀ a, found = Some a →
         a ∈ PostgresBackend.actions (backend self)
         ∧ DaemonAction.state a = CurrentState.state state
         ∧ DaemonAction.instance_id a = instance_id)
    ∧ (∀ r, result = Some r →
         r ∈ PostgresBackend.results (backend self)
         ∧ ∃ a, found = Some a
                ∧ DaemonAction.id a = Some (DaemonActionResult.action_id r))
    ∧ (found = None →
         result = None
         ∧ ∀ a, a ∈ PostgresBackend.actions (backend self) →
                ¬ (DaemonAction.state a = CurrentState.state state
                   ∧ DaemonAction.instance_id a = instance_id)).
Proof.
  destruct (select_action instance_id (CurrentState.state state) (backend self))
    as [a|] eqn:Hsel.
  - exists (Some a), (select_result (DaemonAction.id a) (backend self)).
    split; [by apply get_existing_found|].
    apply List.find_some in Hsel as [Hin Hmatch].
    apply bool_decide_eq_true in Hmatch as [Hstate Hinst].
    split; [|split; [|done]].
    + intros ? [= <-]. by rewrite list_elem_of_In.
    + intros r Hr. apply List.find_some in Hr as [Hin' Hmatch'].
      apply bool_decide_eq_true in Hmatch'. rewrite list_elem_of_In.
      split; [done|]. by exists a.
  - exists None, None. split; [by apply get_existing_missing|].
    split; [done|]. split; [done|]. intros _. split; [done|].
    intros a Hin Hmatch. rewrite list_elem_of_In in Hin.
    pose proof (List.find_none _ _ Hsel a Hin) as Hno. cbn in Hno.
    unfold where_state_and_instance in Hno.
    by rewrite bool_decide_eq_false in Hno.
Qed.

(** *** From queuing to waking *)

(** X9: A pending future returned by [queue_work] is registered under the id
    of the row that the table now holds for the pair. Once the tables
    show, under that id, a row whose final result has no exception and a
    body that the model of the row's registry id decodes, a run of the
    loop on that id resolves this very future with the decoded body. *)
Theorem queue_work_then_drain
    task state instance_id queue_name retry self h self1 :
  queue_work task state instance_id queue_name retry self = (Return h, self1) →
  futures self1 !! h = Some Pending →
  ∃ a action_id,
    select_action instance_id (CurrentState.state state) (backend self1)
      = Some a
    ∧ DaemonAction.id a = Some action_id
    ∧ wait_signals self1 !! action_id = Some h
    ∧ ∀ tables obj rid r model body decoded,
        get_action_by_id action_id (with_backend tables self1)
          = (Return obj, with_backend tables self1) →
        DaemonAction.final_result_id obj = Some rid → rid ≠ 0 →
        get_result_by_id rid (with_backend tables self1)
          = (Return r, with_backend tables self1) →
        truthy (DaemonActionResult.exception r) = false →
        get_action_output (DaemonAction.registry_id obj) = Some model →
        DaemonActionResult.result_body r = Some body →
        model_validate_json model body = Some decoded →
        delegate_done_actions [action_id] (with_backend tables self1)
        = (Return tt,
           with_futures (<[h := Finished (Some decoded)]> (futures self1))
             (with_backend tables self1)).
Proof.
  intros Hcall Hpending.
  assert (∃ a action_id,
    select_action instance_id (CurrentState.state state) (backend self1)
      = Some a
    ∧ DaemonAction.id a = Some action_id
    ∧ wait_signals self1 !! action_id = Some h) as (a & action_id & Ha & Hid & Hreg).
  { destruct (queue_work_paths task state instance_id queue_name retry self)
      as [[Hsel Hq]|[(a & _ & _ & Hq)|[(a & action_id & Hsel & Hid & _ & Hq)
         |(a & action_id & r & _ & _ & _ & [(e & _ & Hq)|(s & Hs & Hq)])]]];
      rewrite Hq in Hcall; try discriminate Hcall;
      injection Hcall as <- <-.
    - exists (new_row task state instance_id queue_name
                (PostgresBackend.action_seq (backend self))),
             (PostgresBackend.action_seq (backend self)).
      split; [|split; [reflexivity|]].
      + unfold select_action in *. cbn. apply find_app_miss; [done|].
        by apply bool_decide_eq_true.
      + cbn. by rewrite lookup_insert_eq.
    - exists a, action_id. split; [done|]. split; [done|].
      cbn. by rewrite lookup_insert_eq.
    - cbn in Hpending. rewrite lookup_fresh_future in Hpending.
      by injection Hpending as ->. }
  exists a, action_id. do 3 (split; [done|]).
  intros tables obj rid r model body decoded Hobj Hfin Hrid Hres Hexc Hreg'
    Hbody Hdec.
  rewrite delegate_done_actions_one.
  rewrite (delegate_done_action_loaded action_id (with_backend tables self1)
             h obj rid r Hreg Hobj Hfin Hrid Hres).
  rewrite Hexc, (resolve_from_body _ _ _ _ _ _ _ Hexc Hreg' Hbody Hdec).
  exact (resolve_pending h _ (with_backend tables self1) Hpending).
Qed.

(** *** Over the life of a manager *)

Lemma delegate_done_actions_invariant (P : TaskManager → Prop) :
  (∀ n self, P self → P (after (delegate_done_action n self))) →
  ∀ notifications self,
    P self → P (after (delegate_done_actions notifications self)).
Proof.
  intros Hstep notifications.
  induction notifications as [|n rest IH]; intros self HP; [done|].
  rewrite delegate_done_actions_step. specialize (Hstep n self HP).
  destruct (delegate_done_action n self) as [[[]|e] self1]; [|done].
  by apply IH.
Qed.

Lemma run_steps_invariant (P : TaskManager → Prop) :
  (∀ step self, P self → P (run_step step self)) →
  ∀ steps self, P self → P (run_steps steps self).
Proof.
  intros Hstep steps. induction steps as [|step later IH]; intros self HP;
    [done|].
  cbn. by apply IH, Hstep.
Qed.

(** X10: Resolve once: whatever happens to the manager afterwards (calls of
    [queue_work], runs of the loop, writes to the tables), a future that
    is resolved stays resolved with the same value or failure. *)
Theorem resolved_future_is_final steps self h fs :
  futures self !! h = Some fs →
  fs ≠ Pending →
  futures (run_steps steps self) !! h = Some fs.
Proof.
  intros Hh Hfs. revert self Hh.
  apply (run_steps_invariant (λ self, futures self !! h = Some fs)).
  intros [task state instance_id queue_name retry|notifications|tables] self Hh;
    cbn.
  - by apply queue_work_keeps_futures.
  - revert self Hh.
    apply (delegate_done_actions_invariant
             (λ self, futures self !! h = Some fs)).
    intros n self Hh.
    destruct (delegate_done_action_cases n self)
      as [[out ->]|(fut & s & _ & _ & Hpend & ->)]; [done|].
    cbn. rewrite list_lookup_insert_ne; [done|]. intros ->. congruence.
  - done.
Qed.

(** X11: A future that [wait_signals] does not hold is out of reach for good:
    it is never registered again and never resolved, whatever happens to
    the manager. This is what becomes of the future of an earlier
    [queue_work] call once a later call for the same pending pair has
    replaced it in the map. *)
Theorem unregistered_future_untouched steps self h fs :
  futures self !! h = Some fs →
  (∀ k, wait_signals self !! k ≠ Some h) →
  futures (run_steps steps self) !! h = Some fs
  ∧ ∀ k, wait_signals (run_steps steps self) !! k ≠ Some h.
Proof.
  intros Hh Hreg. revert self Hh Hreg.
  enough (∀ self,
            futures self !! h = Some fs
            ∧ (∀ k, wait_signals self !! k ≠ Some h) →
            futures (run_steps steps self) !! h = Some fs
            ∧ ∀ k, wait_signals (run_steps steps self) !! k ≠ Some h)
    by eauto.
  apply (run_steps_invariant
           (λ self, futures self !! h = Some fs
                    ∧ ∀ k, wait_signals self !! k ≠ Some h)).
  intros [task state instance_id queue_name retry|notifications|tables] self
    [Hh Hreg]; cbn.
  - split; [by apply queue_work_keeps_futures|].
    intros k.
    destruct (queue_work_registers_at_most_one task state instance_id
                queue_name retry self) as [Hw|[action_id Hw]];
      unfold after in Hw; rewrite Hw; [done|].
    rewrite lookup_insert. case_decide; [|done].
    intros [= <-]. apply lookup_lt_Some in Hh. lia.
  - revert self Hh Hreg.
    enough (∀ self,
              futures self !! h = Some fs
              ∧ (∀ k, wait_signals self !! k ≠ Some h) →
              futures (after (delegate_done_actions notifications self)) !! h
                = Some fs
              ∧ ∀ k, wait_signals
                       (after (delegate_done_actions notifications self))
                       !! k ≠ Some h)
      by eauto.
    apply (delegate_done_actions_invariant
             (λ self, futures self !! h = Some fs
                      ∧ ∀ k, wait_signals self !! k ≠ Some h)).
    intros n self [Hh Hreg].
    destruct (delegate_done_action_cases n self)
      as [[out ->]|(fut & s & Hfut & _ & _ & ->)]; [done|].
    cbn. split; [|done]. rewrite list_lookup_insert_ne; [done|].
    intros ->. by apply (Hreg n).
  - done.
Qed.

(** X12: No operation of the manager removes a registration: an id that has a
    future in [wait_signals] has one ever after, also when that future
    has long been resolved. *)
Theorem registrations_never_removed steps self k :
  is_Some (wait_signals self !! k) →
  is_Some (wait_signals (run_steps steps self) !! k).
Proof.
  revert self.
  apply (run_steps_invariant (λ self, is_Some (wait_signals self !! k))).
  intros [task state instance_id queue_name retry|notifications|tables] self
    Hk; cbn.
  - destruct (queue_work_registers_at_most_one task state instance_id
                queue_name retry self) as [Hw|[action_id Hw]];
      unfold after in Hw; rewrite Hw; [done|].
    rewrite lookup_insert_is_Some. destruct (decide (action_id = k)); auto.
  - revert self Hk.
    apply (delegate_done_actions_invariant
             (λ self, is_Some (wait_signals self !! k))).
    intros n self Hk.
    pose proof (delegate_done_action_frame n self) as (_ & Hw & _).
    by rewrite Hw.
  - done.
Qed.

End Tasks.

(** ** A concrete registry and ledger *)

(** Decoded models are integers here; the one registered output model
    accepts the document [42] and nothing else. *)
Definition parse_answer (body : string) : option Z :=
  if String.eqb body "42" then Some 42 else None.

Definition answer_model : @ActionModel Z := mkActionModel parse_answer eq_refl.

Definition registry (registry_id : string) : option (@ActionModel Z) :=
  if String.eqb registry_id "answer" then Some answer_model else None.

Definition dump (input : Z) : string := "input".

Definition task_answer : @ActionExecutionStub Z := mkStub "answer" None.
Definition task_plain : @ActionExecutionStub Z := mkStub "plain" None.
Definition step_a : CurrentState.t := CurrentState.mk "step_a".
Definition policy : RetryPolicy.t := RetryPolicy.mk 5 2 0.

(** A manager that has queued nothing, over empty tables. *)
Definition manager0 : @TaskManager Z :=
  mkTaskManager (PostgresBackend.mk [] [] 1) ∅ [].

(** The row of the pair (1, step_a), queued under id 1. *)
Definition row_a (registry_id : string) (final : option Z) : DaemonAction.t :=
  DaemonAction.mk (Some 1) "main" 1 "step_a" registry_id None
    (if final is Some _ then DONE else QUEUED) final 1 1 1.

Definition row_b (final : option Z) : DaemonAction.t :=
  DaemonAction.mk (Some 2) "main" 1 "step_b" "answer" None
    (if final is Some _ then DONE else QUEUED) final 1 1 1.

Definition result_ok (id action_id : Z) (body : option string)
    : DaemonActionResult.t :=
  DaemonActionResult.mk (Some id) action_id body None None.

Definition result_boom : DaemonActionResult.t :=
  DaemonActionResult.mk (Some 1) 1 None (Some "boom") (Some "trace...").

(** The manager after one [queue_work] for (1, step_a): the row is
    queued, and the future at address 0 waits under id 1. *)
Definition manager_queued : @TaskManager Z :=
  mkTaskManager (PostgresBackend.mk [row_a "answer" None] [] 2)
    {[ 1 := 0%nat ]} [Pending].

(** The same after a worker stored the result [42] and marked the row. *)
Definition manager_done : @TaskManager Z :=
  mkTaskManager
    (PostgresBackend.mk [row_a "answer" (Some 1)]
       [result_ok 1 1 (Some "42")] 2)
    {[ 1 := 0%nat ]} [Pending].

(** The same after the drain loop resolved the future. *)
Definition manager_resolved : @TaskManager Z :=
  mkTaskManager (backend manager_done) (wait_signals manager_done)
    [Finished (Some 42)].

(** A new manager over a ledger where the row of (1, step_a), stored
    under the given registry id, already has a result. *)
Definition manager_restarted (registry_id : string)
    (result : DaemonActionResult.t) : @TaskManager Z :=
  mkTaskManager
    (PostgresBackend.mk [row_a registry_id (Some 1)] [result] 2) ∅ [].

(** Two awaited rows, both marked DONE: the result of the first has no
    body although its registry id has a model, the second is sound. *)
Definition manager_two : @TaskManager Z :=
  mkTaskManager
    (PostgresBackend.mk [row_a "answer" (Some 1); row_b (Some 2)]
       [result_ok 1 1 None; result_ok 2 2 (Some "42")] 3)
    (<[ 2 := 1%nat ]> {[ 1 := 0%nat ]}) [Pending; Pending].

(** ** The properties on the concrete ledger *)

(** C1, the claim refuted: on an empty ledger the first call for
    (1, step_a) returns the future at address 0; the row then exists and
    has no result; the second call returns the future at address 1, a
    different object, and the map now points at it. *)
Lemma queue_work_second_call_new_handle :
  queue_work dump registry task_answer step_a 1 "main" policy manager0
    = (Return 0%nat, manager_queued)
  ∧ get_existing_action_execution 1 step_a manager_queued
    = (Return (Some (row_a "answer" None), None), manager_queued)
  ∧ wait_signals manager_queued !! 1 = Some 0%nat
  ∧ outcome (queue_work dump registry task_answer step_a 1 "main" policy
               manager_queued)
    = Return 1%nat
  ∧ outcome (queue_work dump registry task_answer step_a 1 "main" policy
               manager_queued)
    ≠ Return 0%nat.
Proof.
  repeat split; try (vm_compute; reflexivity).
  vm_compute. discriminate.
Qed.

(** A call on the queued manager: the future at address 1 is returned
    and replaces the future at address 0 under id 1. *)
Lemma queue_work_pending_allocates_fresh_handle_witness :
  queue_work dump registry task_answer step_a 1 "main" policy manager_queued
    = (Return 1%nat,
       mkTaskManager (backend manager_queued)
         (<[ 1 := 1%nat ]> (wait_signals manager_queued)) [Pending; Pending])
  ∧ 1%nat ≠ 0%nat.
Proof.
  pose proof (queue_work_pending_allocates_fresh_handle dump registry
                task_answer step_a 1 "main" policy manager_queued
                (row_a "answer" None) 1
                ltac:(vm_compute; reflexivity) ltac:(reflexivity))
    as (Hcall & _ & Hfresh).
  split; [exact Hcall|].
  apply (Hfresh 0%nat). eexists; reflexivity.
Defined.

(** C2 at a concrete input: the caller passes the policy (5, 2, 0) for a
    new pair, and the row that is inserted carries (1, 1, 1). *)
Theorem queue_work_drops_retry_policy :
  ∃ row,
    PostgresBackend.actions
      (backend (after (queue_work dump registry task_answer step_a 1 "main"
                         (RetryPolicy.mk 5 2 0) manager0)))
    = [row]
    ∧ DaemonAction.retry_backoff_seconds row = 1
    ∧ DaemonAction.retry_backoff_factor row = 1
    ∧ DaemonAction.retry_jitter row = 1
    ∧ DaemonAction.retry_backoff_seconds row
      ≠ RetryPolicy.backoff_seconds (RetryPolicy.mk 5 2 0)
    ∧ DaemonAction.retry_backoff_factor row
      ≠ RetryPolicy.backoff_factor (RetryPolicy.mk 5 2 0)
    ∧ DaemonAction.retry_jitter row
      ≠ RetryPolicy.jitter (RetryPolicy.mk 5 2 0).
Proof.
  eexists. split; [vm_compute; reflexivity|]. repeat split; cbn; lia.
Qed.

(** C3, the claim refuted: the first DONE notification for id 1 resolves
    the registered future; the same notification delivered again raises
    [InvalidStateError]. *)
Lemma delegate_done_actions_duplicate_raises :
  delegate_done_actions registry [1] manager_done = (Return tt, manager_resolved)
  ∧ wait_signals manager_resolved !! 1 = Some 0%nat
  ∧ futures manager_resolved !! 0%nat = Some (Finished (Some 42))
  ∧ delegate_done_actions registry [1] manager_resolved
    = (Raise InvalidStateError, manager_resolved).
Proof. repeat split; vm_compute; reflexivity. Qed.

(** The duplicate notification on the resolved manager changes nothing
    and does not return normally. *)
Lemma delegate_done_action_on_resolved_witness :
  after (delegate_done_action registry 1 manager_resolved) = manager_resolved
  ∧ outcome (delegate_done_action registry 1 manager_resolved) ≠ Return tt.
Proof.
  pose proof (delegate_done_action_on_resolved registry 1 manager_resolved
                0%nat (Finished (Some 42))
                ltac:(reflexivity) ltac:(reflexivity) ltac:(discriminate))
    as [Hsame Hiff].
  split; [exact Hsame|].
  intros Hret. apply Hiff in Hret as (obj & Hobj & Hfin).
  vm_compute in Hobj. injection Hobj as <-. discriminate Hfin.
Defined.

(** C4, the claim refuted: a result with the body [42] and no exception,
    resolved under a registry id without a model, raises nothing and
    resolves the future with the absent value. *)
Lemma resolve_without_model_does_not_raise :
  registry "plain" = None
  ∧ DaemonActionResult.result_body (result_ok 1 1 (Some "42")) = Some "42"
  ∧ resolve_future_from_result registry 0%nat "plain"
      (result_ok 1 1 (Some "42")) manager_queued
    = (Return tt,
       mkTaskManager (backend manager_queued) (wait_signals manager_queued)
         [Finished None]).
Proof. repeat split; vm_compute; reflexivity. Qed.

(** The same resolution, obtained from the general statement. *)
Lemma resolve_without_model_gives_absent_value_witness :
  resolve_future_from_result registry 0%nat "plain"
    (result_ok 1 1 (Some "42")) manager_queued
  = (Return tt, with_futures [Finished None] manager_queued).
Proof.
  exact (resolve_without_model_gives_absent_value registry 0%nat "plain"
           (result_ok 1 1 (Some "42")) manager_queued
           ltac:(reflexivity) ltac:(reflexivity) ltac:(reflexivity)).
Defined.

(** C5 at a concrete input: the stored result carries the exception
    [boom] and the stack [trace...]. The drain loop fails the waiting
    future with a text that contains both; [queue_work], called by a
    manager that finds the result in the ledger, returns a future failed
    with [boom] alone. *)
Theorem queue_work_fast_path_drops_stack :
  delegate_done_actions registry [1]
    (mkTaskManager (backend (manager_restarted "answer" result_boom))
       {[ 1 := 0%nat ]} [Pending])
  = (Return tt,
     mkTaskManager (backend (manager_restarted "answer" result_boom))
       {[ 1 := 0%nat ]} [Failed "Action failed with error: boom trace..."])
  ∧ queue_work dump registry task_answer step_a 1 "main" policy
      (manager_restarted "answer" result_boom)
    = (Return 0%nat,
       with_futures [Failed "boom"] (manager_restarted "answer" result_boom))
  ∧ str_contains "boom" "boom" = true
  ∧ str_contains "trace..." "boom" = false.
Proof. repeat split; vm_compute; reflexivity. Qed.

(** C6, the claim refuted: notifications 1 and 2 are delivered in this
    order; the first raises, the loop ends there, and the future of the
    second stays pending although its result is stored and a run on
    notification 2 alone resolves it. *)
Lemma delegate_done_actions_not_isolated :
  delegate_done_actions registry [1; 2] manager_two
    = (Raise (ValueError "Disallowed response type"), manager_two)
  ∧ wait_signals manager_two !! 2 = Some 1%nat
  ∧ futures manager_two !! 1%nat = Some Pending
  ∧ delegate_done_actions registry [2] manager_two
    = (Return tt, with_futures [Pending; Finished (Some 42)] manager_two).
Proof. repeat split; vm_compute; reflexivity. Qed.

(** The same run, obtained from the general statement with an empty
    prefix. *)
Lemma delegate_done_actions_stops_at_raise_witness :
  delegate_done_actions registry ([] ++ 1 :: [2]) manager_two
  = (Raise (ValueError "Disallowed response type"), manager_two).
Proof.
  exact (delegate_done_actions_stops_at_raise registry [] 1 [2]
           manager_two manager_two _ manager_two
           ltac:(reflexivity) ltac:(vm_compute; reflexivity)).
Defined.

(** The sound notification of the awaited row resolves the future with
    the decoded body. *)
Lemma delegate_done_action_resolution_witness :
  delegate_done_action registry 1 manager_done
  = (Return tt, with_futures [Finished (Some 42)] manager_done).
Proof.
  pose proof (delegate_done_action_resolution registry 1 manager_done 0%nat
                (row_a "answer" (Some 1)) 1 (result_ok 1 1 (Some "42"))
                ltac:(reflexivity) ltac:(reflexivity)
                ltac:(vm_compute; reflexivity) ltac:(reflexivity)
                ltac:(lia) ltac:(vm_compute; reflexivity) ltac:(reflexivity))
    as (Hdecoded & _ & _).
  exact (Hdecoded answer_model "42" 42
           ltac:(reflexivity) ltac:(reflexivity) ltac:(reflexivity)).
Defined.

(** A ledger shared by two pairs: the row of (1, step_b) comes first
    and was queued as [plain] on the queue [other]; the row of
    (1, step_a) was queued as [answer] on the queue [main]. Both have a
    result, stored in the same order. *)
Definition row_c : DaemonAction.t :=
  DaemonAction.mk (Some 2) "other" 1 "step_b" "plain" None DONE (Some 2) 1 1 1.

Definition manager_shared : @TaskManager Z :=
  mkTaskManager
    (PostgresBackend.mk [row_c; row_a "answer" (Some 1)]
       [result_ok 2 2 (Some "7"); result_ok 1 1 (Some "42")] 3)
    ∅ [].

Lemma manager_shared_row :
  first_row_of 1 "step_a" (backend manager_shared) (row_a "answer" (Some 1)).
Proof.
  exists [row_c], []. split; [reflexivity|]. split; [|by split].
  constructor; [|constructor]. intros [_ Hstate]. discriminate Hstate.
Qed.


(** A new manager over the shared ledger finds the result of the second
    row behind the result of the first: the call returns the future at
    address 0, resolved with the decoded 42, and registers nothing. *)
Lemma queue_work_fast_path_witness :
  ∃ self',
    queue_work dump registry task_answer step_a 1 "main" policy manager_shared
    = (Return 0%nat, self')
    ∧ wait_signals self' = ∅
    ∧ futures self' !! 0%nat = Some (Finished (Some 42)).
Proof.
  destruct (queue_work_fast_path dump registry task_answer step_a 1 "main"
              policy manager_shared (row_a "answer" (Some 1)) 1
              (result_ok 1 1 (Some "42"))
              manager_shared_row ltac:(reflexivity)
              ltac:(apply list_elem_of_In; right; left; reflexivity)
              ltac:(reflexivity))
    as (r & out & self' & Hr & Hcall & Hmap & _ & Hresolved & Hreturns).
  assert (r = result_ok 1 1 (Some "42")) as ->.
  { destruct Hr as (before & rest & Heq & _ & Haction). cbn in Heq.
    destruct before as [|x [|y before]]; cbn in Heq.
    - injection Heq as <- _. discriminate Haction.
    - by injection Heq as _ <- _.
    - injection Heq as _ _ Hnil. by destruct before. }
  assert (out = Return 0%nat) as ->.
  { apply Hreturns. right. right. exists answer_model, "42", 42.
    repeat split; reflexivity. }
  exists self'. split; [exact Hcall|]. split; [exact Hmap|].
  destruct (Hresolved 0%nat eq_refl) as (_ & fs & Hfs & _ & _ & _ & Hdecoded).
  destruct (Hdecoded eq_refl answer_model eq_refl)
    as (body & decoded & Hbody & Hdec & ->).
  injection Hbody as <-. vm_compute in Hdec. injection Hdec as <-.
  exact Hfs.
Defined.


(** ** The further properties on the concrete ledger *)

(** The awaited failure of row 1, before the loop has seen it. *)
Definition manager_failing : @TaskManager Z :=
  mkTaskManager (backend (manager_restarted "answer" result_boom))
    {[ 1 := 0%nat ]} [Pending].

(** The manager after a second [queue_work] for the pending pair and the
    worker's write: the future at address 1 has replaced the one at
    address 0 under id 1. *)
Definition manager_requeued : @TaskManager Z :=
  mkTaskManager (backend manager_done) {[ 1 := 1%nat ]} [Pending; Pending].

(** Id 7 is not registered and row 1 has no final result yet. *)
Lemma delegate_done_actions_skips_witness :
  delegate_done_actions registry [7; 1] manager_queued
  = (Return tt, manager_queued).
Proof.
  apply (delegate_done_actions_skips registry [7; 1] manager_queued).
  constructor; [left; reflexivity|].
  constructor; [|constructor].
  right. exists (row_a "answer" None). split; vm_compute; reflexivity.
Defined.

(** A run on notification 2 leaves the future of row 1 alone. *)
Lemma delegate_done_actions_touches_notified_only_witness :
  futures (after (delegate_done_actions registry [2] manager_two)) !! 0%nat
  = Some Pending.
Proof.
  rewrite (delegate_done_actions_touches_notified_only registry [2]
             manager_two 0%nat); [reflexivity|].
  intros n Hn. apply list_elem_of_singleton in Hn as ->.
  vm_compute. discriminate.
Defined.

(** Notification 2 is handled, notification 1 raises. *)
Lemma delegate_done_actions_raise_point_witness :
  ∃ before n rest,
    [2; 1] = (before ++ n :: rest)%list
    ∧ delegate_done_actions registry before manager_two
      = (Return tt, with_futures [Pending; Finished (Some 42)] manager_two)
    ∧ delegate_done_action registry n
        (with_futures [Pending; Finished (Some 42)] manager_two)
      = (Raise (ValueError "Disallowed response type"),
         with_futures [Pending; Finished (Some 42)] manager_two).
Proof.
  apply (delegate_done_actions_raise_point registry [2; 1] manager_two).
  vm_compute. reflexivity.
Defined.

(** The stored result of the pair has no body although the task's
    registry id has a model: the call raises and leaves tables and map. *)
Lemma queue_work_raise_witness :
  key_exists 1 step_a (manager_restarted "answer" (result_ok 1 1 None))
  ∧ backend (after (queue_work dump registry task_answer step_a 1 "main"
                     policy (manager_restarted "answer" (result_ok 1 1 None))))
    = backend (manager_restarted "answer" (result_ok 1 1 None))
  ∧ wait_signals
      (after (queue_work dump registry task_answer step_a 1 "main"
                policy (manager_restarted "answer" (result_ok 1 1 None))))
    = ∅.
Proof.
  destruct (queue_work_raise dump registry task_answer step_a 1 "main" policy
              (manager_restarted "answer" (result_ok 1 1 None))
              (ValueError "Disallowed response type")
              ltac:(vm_compute; reflexivity))
    as (Hkey & Htables & Hmap & _).
  split; [exact Hkey|]. split; [exact Htables | exact Hmap].
Defined.

(** The first call on the empty ledger, then the lookup. *)
Lemma queue_work_then_lookup_witness :
  get_existing_action_execution 1 step_a
    (after (queue_work dump registry task_answer step_a 1 "main" policy
              manager0))
  = (Return (Some (row_a "answer" None), None), manager_queued).
Proof.
  destruct (queue_work_then_lookup dump registry task_answer step_a 1 "main"
              policy manager0 ltac:(reflexivity))
    as (row & -> & Hlookup).
  exact Hlookup.
Defined.

(** Queue on the empty ledger, let the worker store 42, run the loop. *)
Lemma queue_work_then_drain_witness :
  delegate_done_actions registry [1]
    (with_backend (backend manager_done) manager_queued)
  = (Return tt,
     with_futures [Finished (Some 42)]
       (with_backend (backend manager_done) manager_queued)).
Proof.
  destruct (queue_work_then_drain dump registry task_answer step_a 1 "main"
              policy manager0 0%nat manager_queued
              ltac:(vm_compute; reflexivity) ltac:(reflexivity))
    as (a & action_id & Ha & Hid & _ & Hdrain).
  vm_compute in Ha. injection Ha as <-. injection Hid as <-.
  exact (Hdrain (backend manager_done) (row_a "answer" (Some 1)) 1
           (result_ok 1 1 (Some "42")) answer_model "42" 42
           ltac:(vm_compute; reflexivity) ltac:(reflexivity) ltac:(lia)
           ltac:(vm_compute; reflexivity) ltac:(reflexivity)
           ltac:(reflexivity) ltac:(reflexivity) ltac:(reflexivity)).
Defined.

(** The resolved future survives a duplicate notification, a further
    call for the pair and a rewrite of the tables. *)
Lemma resolved_future_is_final_witness :
  futures
    (run_steps dump registry
       [RunDrain [1];
        CallQueueWork task_plain step_a 1 "other" policy;
        LedgerWrite (PostgresBackend.mk [] [] 1)]
       manager_resolved) !! 0%nat
  = Some (Finished (Some 42)).
Proof.
  apply (resolved_future_is_final dump registry); [reflexivity | discriminate].
Defined.

(** The replaced future at address 0 stays pending through the run that
    resolves its successor. *)
Lemma unregistered_future_untouched_witness :
  futures (run_steps dump registry [RunDrain [1]] manager_requeued) !! 0%nat
  = Some Pending
  ∧ ∀ k, wait_signals (run_steps dump registry [RunDrain [1]] manager_requeued)
           !! k ≠ Some 0%nat.
Proof.
  apply (unregistered_future_untouched dump registry); [reflexivity|].
  intros k. destruct (decide (k = 1)) as [->|Hk].
  - vm_compute. discriminate.
  - change (wait_signals manager_requeued) with ({[ 1 := 1%nat ]} : gmap Z nat).
    by rewrite lookup_singleton_ne.
Defined.

(** Id 1 is still registered after its future was resolved. *)
Lemma registrations_never_removed_witness :
  is_Some
    (wait_signals (run_steps dump registry [RunDrain [1]] manager_done) !! 1).
Proof.
  apply (registrations_never_removed dump registry).
  eexists. reflexivity.
Defined.

(** The loop fails the waiting future with both texts. *)
Lemma delegate_done_action_failure_text_witness :
  ∃ message,
    delegate_done_action registry 1 manager_failing
    = (Return tt, with_futures [Failed message] manager_failing)
    ∧ str_contains "boom" message = true
    ∧ str_contains "trace..." message = true.
Proof.
  exact (delegate_done_action_failure_text registry 1 manager_failing 0%nat
           (row_a "answer" (Some 1)) 1 result_boom "boom" "trace..."
           ltac:(reflexivity) ltac:(reflexivity)
           ltac:(vm_compute; reflexivity) ltac:(reflexivity) ltac:(lia)
           ltac:(vm_compute; reflexivity) ltac:(reflexivity)
           ltac:(discriminate) ltac:(reflexivity)).
Defined.

(** The empty table has at most one row per pair, and so has the table
    after the first call. *)
Lemma queue_work_keeps_one_row_per_pair_witness :
  one_row_per_pair
    (after (queue_work dump registry task_answer step_a 1 "main" policy
              manager0)).
Proof.
  apply (queue_work_keeps_one_row_per_pair dump registry).
  intros instance_id state. cbn. lia.
Defined.

(** * filzl.client_interface.openapi: the hash of a property

    [OpenAPIProperty.__hash__] hashes the JSON text of
    [sort_json(self.model_dump())]; [sort_json] is the part that makes
    the text independent of the order in which the dicts were filled. *)

Module OpenAPI.

(** The Python objects that [model_dump] produces. A dict is the list of
    its items in insertion order. *)
#[warnings="-register-all"]
Inductive pyobj : Type :=
| PNone
| PBool (b : bool)
| PInt (n : Z)
| PStr (s : string)
| PList (elements : list pyobj)
| PTuple (elements : list pyobj)
| PDict (items : list (string * pyobj)).

(** The order in which [sorted] puts two [(key, value)] tuples whose keys
    differ: the order of the keys, that is of [str] (by code point, which
    for UTF-8 text is the order of the bytes). *)
Definition item_le (a b : string * pyobj) : Prop :=
  String.leb a.1 b.1 = true.

#[global] Instance item_le_dec a b : Decision (item_le a b).
Proof. unfold item_le. apply _. Defined.

Definition as_tuple (item : string * pyobj) : pyobj :=
  PTuple [PStr item.1; item.2].

(** [sort_json]: a dict becomes the sorted list of its [(key, value)]
    tuples, with the values sorted in turn; any other object is returned
    as it is. The keys of a dict are distinct, so that every sort yields
    the same list; [sorted] is taken to be the merge sort. *)
Fixpoint sort_json (obj : pyobj) : pyobj :=
  match obj with
  | PDict items =>
      PList
        (as_tuple <$>
           merge_sort item_le
             ((fix each (items : list (string * pyobj)) :=
                 match items with
                 | [] => []
                 | (k, v) :: rest => (k, sort_json v) :: each rest
                 end) items))
  | _ => obj
  end.

Definition sorted_items (items : list (string * pyobj)) : list (string * pyobj) :=
  merge_sort item_le (prod_map id sort_json <$> items).

Lemma sort_json_dict items :
  sort_json (PDict items) = PList (as_tuple <$> sorted_items items).
Proof.
  cbn. unfold sorted_items. do 3 f_equal.
  induction items as [|[k v] rest IH]; [done|]. cbn. by rewrite IH.
Qed.

Lemma ascii_compare_trans c1 c2 c3 :
  Ascii.compare c1 c2 = Lt → Ascii.compare c2 c3 = Lt → Ascii.compare c1 c3 = Lt.
Proof.
  unfold Ascii.compare. rewrite !N.compare_lt_iff. lia.
Qed.

Lemma string_compare_lt_trans s1 s2 s3 :
  String.compare s1 s2 = Lt → String.compare s2 s3 = Lt →
  String.compare s1 s3 = Lt.
Proof.
  revert s2 s3. induction s1 as [|c1 s1 IH]; intros [|c2 s2] [|c3 s3]; cbn;
    try done.
  destruct (Ascii.compare c1 c2) eqn:H12; try done;
    destruct (Ascii.compare c2 c3) eqn:H23; try done; intros Ha Hb.
  - apply Ascii.compare_eq_iff in H12 as ->, H23 as ->.
    unfold Ascii.compare at 1. rewrite N.compare_refl. eauto.
  - apply Ascii.compare_eq_iff in H12 as ->. by rewrite H23.
  - apply Ascii.compare_eq_iff in H23 as <-. by rewrite H12.
  - by rewrite (ascii_compare_trans _ _ _ H12 H23).
Qed.

#[global] Instance item_le_trans : Transitive item_le.
Proof.
  intros a b c. unfold item_le, String.leb.
  destruct (String.compare a.1 b.1) eqn:Hab; [| |done].
  - apply String.compare_eq_iff in Hab as ->. done.
  - destruct (String.compare b.1 c.1) eqn:Hbc; [| |done]; intros _ _.
    + apply String.compare_eq_iff in Hbc as <-. by rewrite Hab.
    + by rewrite (string_compare_lt_trans _ _ _ Hab Hbc).
Qed.

#[global] Instance item_le_total : Total item_le.
Proof. intros a b. apply String.leb_total. Qed.

Lemma same_key_same_item (l : list (string * pyobj)) a b :
  NoDup l.*1 → a ∈ l → b ∈ l → a.1 = b.1 → a = b.
Proof.
  induction l as [|x l IH]; intros Hnd Ha Hb Hkey; [by inv Ha|].
  cbn in Hnd. apply NoDup_cons in Hnd as [Hx Hnd].
  inv Ha; inv Hb; try done.
  - exfalso. apply Hx. rewrite Hkey. by apply list_elem_of_fmap_2.
  - exfalso. apply Hx. rewrite <- Hkey. by apply list_elem_of_fmap_2.
  - by apply IH.
Qed.

Lemma merge_sort_unique_keys (l1 l2 : list (string * pyobj)) :
  NoDup l1.*1 → l1 ≡ₚ l2 → merge_sort item_le l1 = merge_sort item_le l2.
Proof.
  intros Hnd Hperm.
  apply StronglySorted_unique_strong with (R := item_le).
  - intros a b Ha Hb Hab Hba.
    rewrite merge_sort_Permutation in Ha, Hb. rewrite <- Hperm in Hb.
    apply (same_key_same_item l1); [done..|].
    by apply String.leb_antisym.
  - apply StronglySorted_merge_sort; apply _.
  - apply StronglySorted_merge_sort; apply _.
  - by rewrite !merge_sort_Permutation.
Qed.

(** X15: Key order does not matter: two dicts with distinct keys that hold
    the same keys, in any order, with values that [sort_json] maps to the
    same object, are mapped to the same object. *)
Theorem sort_json_key_order items1 items2 reordered :
  NoDup items1.*1 →
  items1 ≡ₚ reordered →
  Forall2 (λ a b, a.1 = b.1 ∧ sort_json a.2 = sort_json b.2)
    reordered items2 →
  sort_json (PDict items1) = sort_json (PDict items2).
Proof.
  intros Hnd Hperm Hvalues. rewrite !sort_json_dict. do 2 f_equal.
  unfold sorted_items.
  assert (prod_map id sort_json <$> reordered
          = prod_map id sort_json <$> items2) as <-.
  { clear Hnd Hperm.
    induction Hvalues as [|[k1 v1] [k2 v2] l1 l2 [Hk Hv] _ IH]; [done|].
    cbn [fst snd] in Hk, Hv. rewrite !fmap_cons, IH. unfold prod_map at 1 3.
    cbn [fst snd id]. by rewrite Hk, Hv. }
  apply merge_sort_unique_keys.
  - replace ((prod_map id sort_json <$> items1).*1) with (items1.*1); [done|].
    clear. induction items1 as [|[k v] l IH]; [done|]. cbn. by rewrite IH.
  - by rewrite Hperm.
Qed.

(** Objects that are not dicts come back as they are; in particular the
    dicts inside a list keep the order of their keys. *)
Lemma sort_json_not_dict obj :
  (∀ items, obj ≠ PDict items) → sort_json obj = obj.
Proof. intros Hobj. destruct obj; try done. by destruct (Hobj items). Qed.

(** Two dumps of one property, with the fields and the nested
    [properties] in different orders. *)
Definition dump_a : list (string * pyobj) :=
  [("type", PStr "object");
   ("properties", PDict [("b", PNone); ("a", PInt 1)])].

Definition dump_b : list (string * pyobj) :=
  [("properties", PDict [("a", PInt 1); ("b", PNone)]);
   ("type", PStr "object")].

Lemma sort_json_key_order_witness :
  sort_json (PDict dump_a) = sort_json (PDict dump_b)
  ∧ sort_json (PDict dump_a)
    = PList
        [PTuple [PStr "properties";
                 PList [PTuple [PStr "a"; PInt 1]; PTuple [PStr "b"; PNone]]];
         PTuple [PStr "type"; PStr "object"]].
Proof.
  split; [|vm_compute; reflexivity].
  apply (sort_json_key_order dump_a dump_b
           [("properties", PDict [("b", PNone); ("a", PInt 1)]);
            ("type", PStr "object")]).
  - exact (bool_decide_unpack (NoDup dump_a.*1) I).
  - apply perm_swap.
  - repeat constructor; vm_compute; reflexivity.
Defined.

End OpenAPI.

